(** * Emergency-alert orchestrator (app.py): a shallow embedding

    The pipeline of [app.py] is location lookup, labelling, evidence capture,
    message composition and dispatch.  Every step talks to the outside world
    (HTTP, devices, the file system, SMTP, the clock), and every step wraps
    those calls in [try]/[except].  The embedding keeps both aspects:

    - the outside world is an explicit record of oracles ([Env]): what each
      external call answers, or which exception it raises;
    - the Python code is written in a small state-and-exception monad [M],
      whose state holds the file system and the trace of observable events
      (HTTP requests, status callbacks, SMTP commands).

    Conventions of the model:
    - [logger] calls are left out (they are marked in comments where a
      branch consists of nothing else);
    - an exception is an instance of [Exception], which is what the
      handlers of [app.py] catch; it is identified by its message;
    - strings are byte strings (text in UTF-8); the built-in [float()] is
      an oracle of the world, as are the two calls of the [email] package
      that can reject a text, [MIMEText(body)] and [msg.as_string()];
    - the frame loop of the video step is bounded by a fuel argument, and
      running out of fuel is an outcome of its own ([Diverge]) that no
      handler catches;
    - the text [msg.as_string()] builds is kept symbolic: the message
      handed to [sendmail] is the structure that was composed;
    - the Flask routes and the thread that runs a session are outside the
      model; [status_callback] is the callback the [/sos] route passes. *)

From Stdlib Require Import ZArith Strings.String Strings.Ascii Strings.Byte List Bool Lia.
From Stdlib Require Import DecimalString Floats.SpecFloat.
From stdpp Require Import base option gmap strings list.

Import ListNotations.
Local Open Scope Z_scope.

(** ** Python floats: binary64, as [spec_float] with prec 53, emax 1024 *)

Module PyFloat.

Definition float := spec_float.

Definition prec : Z := 53.
Definition emax : Z := 1024.

Definition zero : float := S754_zero false.

(** [x == 0.0]: IEEE equality, so [-0.0 == 0.0] and [nan != 0.0]. *)
Definition is_zero (x : float) : bool := SFeqb x zero.

(** [bool(x)] for a float is [x != 0.0]. *)
Definition truthy (x : float) : bool := negb (is_zero x).

(** The binary64 nearest to [m * 10^e] (ties to even), the conversion
    [float()] applies to a decimal literal. *)
Definition of_decimal (neg : bool) (m : Z) (e : Z) : float :=
  match m with
  | Zpos p =>
      if 0 <=? e
      then binary_normalize prec emax
             (if neg then - (m * 10 ^ e) else m * 10 ^ e) 0 neg
      else SFdiv prec emax (S754_finite neg p 0)
             (S754_finite false (Z.to_pos (10 ^ (- e))) 0)
  | _ => S754_zero neg
  end.

(** *** The string grammar of [float(s)] on ASCII strings

    [of_string] is the [float()] of the example worlds, which hold ASCII
    text only; the code itself is modelled over any [float()], see
    [float_of_str] in [Env]. *)

(** The characters [float()] strips from an ASCII string: tab, line
    feed, vertical tab, form feed, carriage return and space. *)
Definition is_space (c : ascii) : bool :=
  let n := N_of_ascii c in
  ((9 <=? n) && (n <=? 13) || (n =? 32))%N.

Definition digit_val (c : ascii) : option Z :=
  let n := Z.of_N (N_of_ascii c) in
  if (48 <=? n) && (n <=? 57) then Some (n - 48) else None.

Fixpoint lstrip (s : string) : string :=
  match s with
  | String c s' => if is_space c then lstrip s' else s
  | EmptyString => EmptyString
  end.

Fixpoint rstrip (s : string) : string :=
  match s with
  | String c s' =>
      match rstrip s' with
      | EmptyString => if is_space c then EmptyString else String c EmptyString
      | r => String c r
      end
  | EmptyString => EmptyString
  end.

Definition lower (c : ascii) : ascii :=
  let n := N_of_ascii c in
  if ((65 <=? n) && (n <=? 90))%N then ascii_of_N (n + 32) else c.

Fixpoint lower_string (s : string) : string :=
  match s with
  | String c s' => String (lower c) (lower_string s')
  | EmptyString => EmptyString
  end.

(** A digit part is [digit (["_"] digit)*].  [digits_tail] reads what
    follows its first digit and returns the value accumulated on top of
    [acc], the number of digits read and the rest of the string. *)
Fixpoint digits_tail (s : string) (acc : Z) (n : Z) : Z * Z * string :=
  match s with
  | String c s' =>
      match digit_val c with
      | Some d => digits_tail s' (10 * acc + d) (n + 1)
      | None =>
          if Ascii.eqb c "_"
          then match s' with
               | String c' s'' =>
                   match digit_val c' with
                   | Some d => digits_tail s'' (10 * acc + d) (n + 1)
                   | None => (acc, n, s)
                   end
               | EmptyString => (acc, n, s)
               end
          else (acc, n, s)
      end
  | EmptyString => (acc, n, s)
  end.

(** [None] when no digit starts the string. *)
Definition digitpart (s : string) (acc : Z) : option (Z * Z * string) :=
  match s with
  | String c s' =>
      match digit_val c with
      | Some d => Some (digits_tail s' (10 * acc + d) 1)
      | None => None
      end
  | EmptyString => None
  end.

Definition sign (s : string) : bool * string :=
  match s with
  | String "-" s' => (true, s')
  | String "+" s' => (false, s')
  | _ => (false, s)
  end.

(** The optional exponent; the whole string must be consumed. *)
Definition exponent (s : string) : option Z :=
  match s with
  | EmptyString => Some 0
  | String c s' =>
      if Ascii.eqb (lower c) "e"
      then let '(neg, s1) := sign s' in
           match digitpart s1 0 with
           | Some (v, _, EmptyString) => Some (if neg then - v else v)
           | _ => None
           end
      else None
  end.

(** [intpart [. [fraction]] [exponent]] or [. fraction [exponent]]. *)
Definition decimal (neg : bool) (s : string) : option float :=
  match digitpart s 0 with
  | Some (m, _, String "." s1) =>
      match digitpart s1 m with
      | Some (m', k, s2) =>
          e ← exponent s2; Some (of_decimal neg m' (e - k))
      | None => e ← exponent s1; Some (of_decimal neg m e)
      end
  | Some (m, _, s1) => e ← exponent s1; Some (of_decimal neg m e)
  | None =>
      match s with
      | String "." s1 =>
          match digitpart s1 0 with
          | Some (m', k, s2) =>
              e ← exponent s2; Some (of_decimal neg m' (e - k))
          | None => None
          end
      | _ => None
      end
  end.

(** [float(s)]: [None] stands for [ValueError]. *)
Definition of_string (s : string) : option float :=
  let '(neg, body) := sign (rstrip (lstrip s)) in
  let low := lower_string body in
  if String.eqb low "inf" || String.eqb low "infinity"
  then Some (S754_infinity neg)
  else if String.eqb low "nan" then Some S754_nan
  else decimal neg body.

End PyFloat.

Abbreviation float := PyFloat.float.

(** ** Python values

    The values the code handles: what [response.json()] yields, plus the
    strings and floats the code builds itself.  A dict is an association
    list in insertion order (its keys are distinct); lookup takes the first
    binding of a key. *)

#[warnings="-register-all"]
Inductive pyval :=
| VNone
| VBool (b : bool)
| VInt (z : Z)
| VFloat (f : float)
| VStr (s : string)
| VList (l : list pyval)
| VDict (d : list (string * pyval)).

(** [bool(v)], as [if v:] and [not v] use it. *)
Definition truthy (v : pyval) : bool :=
  match v with
  | VNone => false
  | VBool b => b
  | VInt z => negb (z =? 0)
  | VFloat f => PyFloat.truthy f
  | VStr s => negb (String.eqb s "")
  | VList l => match l with [] => false | _ => true end
  | VDict d => match d with [] => false | _ => true end
  end.

Fixpoint dict_lookup (k : string) (d : list (string * pyval)) : option pyval :=
  match d with
  | [] => None
  | (k', v) :: d' => if String.eqb k k' then Some v else dict_lookup k d'
  end.

(** Exceptions are identified by the text [str(e)] the handlers print. *)
Definition exn := string.

(** ** The monad of the embedding *)

Inductive outcome (A : Type) :=
| Ret (a : A)            (* normal completion *)
| Raise (e : exn)        (* a Python exception (an [Exception] subclass) *)
| Diverge.               (* the fuel of a loop ran out *)
Arguments Ret {A} a.
Arguments Raise {A} e.
Arguments Diverge {A}.

(** A MIME part of the message being composed. *)
Inductive part :=
| PText (text : string)                                   (* MIMEText(text, 'plain') *)
| PAttach (subtype : string) (filename : string) (content : list byte).
                                                          (* MIMEApplication(content, _subtype) *)

Record message := {
  msg_from : string;
  msg_to : string;
  msg_subject : string;
  msg_parts : list part;
}.

(** Observable actions, in the order the program performs them. *)
Inductive event :=
| EvHttpGet (url : string)
| EvStatus (status : string) (success : bool)      (* status_callback(status, success) *)
| EvSmtpConnect (host : string) (port : Z)
| EvSmtpStartTls
| EvSmtpLogin (user password : string)
| EvSmtpSendmail (sender : string) (recipients : list string) (msg : message)
| EvSmtpQuit.

Record state := {
  files : gmap string (list byte);   (* the working directory *)
  trace : list event;                (* events so far, oldest first *)
  ticks : nat;                       (* calls of [datetime.now()] so far *)
  reads : nat;                       (* calls of [cap.read()] so far *)
}.

Definition M (A : Type) : Type := state -> outcome A * state.

Definition ret {A} (a : A) : M A := fun st => (Ret a, st).

Definition raise {A} (e : exn) : M A := fun st => (Raise e, st).

Definition bind {A B} (m : M A) (k : A -> M B) : M B :=
  fun st =>
    match m st with
    | (Ret a, st') => k a st'
    | (Raise e, st') => (Raise e, st')
    | (Diverge, st') => (Diverge, st')
    end.

(** [try: m except Exception as e: h e].  Effects of [m] before the
    exception stay. *)
Definition try_except {A} (m : M A) (h : exn -> M A) : M A :=
  fun st =>
    match m st with
    | (Raise e, st') => h e st'
    | r => r
    end.

Declare Scope py_scope.
Delimit Scope py_scope with py.
Notation "'let!' x := m 'in' k" := (bind m (fun x => k))
  (at level 10, x name, m at level 100, k at level 200) : py_scope.
Notation "'let!' ' p := m 'in' k" := (bind m (fun x => let 'p := x in k))
  (at level 10, p pattern, m at level 100, k at level 200) : py_scope.
Notation "'do!' m 'in' k" := (bind m (fun _ => k))
  (at level 10, m at level 100, k at level 200) : py_scope.
Local Open Scope py_scope.

(** Lifting a partial operation: [None] raises [e]. *)
Definition or_raise {A} (e : exn) (o : option A) : M A :=
  match o with Some a => ret a | None => raise e end.

Definition emit (ev : event) : M unit :=
  fun st => (Ret tt, {| files := files st; trace := trace st ++ [ev];
                        ticks := ticks st; reads := reads st |}).

(** ** The outside world *)

(** What [requests.get(url)] does: raise, or answer with a status code and
    a body on which [.json()] raises ([None]) or yields a value. *)
Inductive http_result :=
| HttpRaise (e : exn)
| HttpResponse (status_code : Z) (json : option pyval).

(** [cv2.VideoCapture(0)] followed by [cap.isOpened()]. *)
Inductive capture_result :=
| CaptureRaise (e : exn)
| CaptureClosed
| CaptureOpened.

(** One [cap.read()]: raise, [(False, None)] or [(True, frame)]. *)
Inductive read_result :=
| ReadRaise (e : exn)
| ReadFailed
| ReadFrame (frame : list byte).

Record Env := {
  (* os.environ *)
  environ : gmap string string;
  (* requests *)
  http : string -> http_result;
  (* datetime: the k-th call of now(), in microseconds; strftime(format) *)
  now : nat -> Z;
  strftime : string -> Z -> string;
  (* float(s) on a str: None stands for ValueError *)
  float_of_str : string -> option float;
  (* str() of a float and of a list or dict inside an f-string *)
  float_str : float -> string;
  container_str : pyval -> string;
  (* sounddevice: sd.rec and sd.wait raise, or yield the recording *)
  sd_rec : exn + list byte;
  (* soundfile: sf.write(path, recording) leaves this file content (if any)
     and raises or not *)
  sf_write : string -> list byte -> option (list byte) * option exn;
  (* cv2 *)
  video_capture : capture_result;
  cap_read : nat -> read_result;
  (* the file a VideoWriter has on disk after the given frames (if any) *)
  writer_file : string -> list (list byte) -> option (list byte);
  (* open(path, 'wb') and open(path, 'rb') may raise *)
  open_wb_error : string -> option exn;
  open_rb_error : string -> option exn;
  (* smtplib *)
  smtp_connect : option exn;
  smtp_starttls : option exn;
  smtp_login : string -> string -> option exn;
  smtp_sendmail : string -> list string -> message -> option exn;
  smtp_quit : option exn;
  (* email: MIMEText(text, 'plain') on a text it cannot encode, and
     msg.as_string() on a message it cannot serialise, raise *)
  mime_text_error : string -> option exn;
  as_string_error : message -> option exn;
}.

(** ** Python built-ins used by the code *)

Definition py_float (env : Env) (s : string) : M float :=
  or_raise "ValueError: could not convert string to float" (float_of_str env s).

(** [s.split(sep)] for a one-character separator. *)
Fixpoint split_on (sep : ascii) (s : string) : list string :=
  match s with
  | EmptyString => [EmptyString]
  | String c s' =>
      if Ascii.eqb c sep then EmptyString :: split_on sep s'
      else match split_on sep s' with
           | h :: t => String c h :: t
           | [] => [String c EmptyString]
           end
  end.

(** [v.split(',')]: only a [str] has the method. *)
Definition str_split (v : pyval) (sep : ascii) : M (list string) :=
  match v with
  | VStr s => ret (split_on sep s)
  | _ => raise "AttributeError: object has no attribute 'split'"
  end.

(** [l[i]] on a list of strings. *)
Definition list_index (l : list string) (i : nat) : M string :=
  or_raise "IndexError: list index out of range" (l !! i).

(** [v.get(key, default)]: only a [dict] has the method. *)
Definition dict_get (v : pyval) (key : string) (default : pyval) : M pyval :=
  match v with
  | VDict d => ret (match dict_lookup key d with Some x => x | None => default end)
  | _ => raise "AttributeError: object has no attribute 'get'"
  end.

(** [v[key]] for a string key. *)
Definition subscript_key (v : pyval) (key : string) : M pyval :=
  match v with
  | VDict d => or_raise "KeyError" (dict_lookup key d)
  | VList _ => raise "TypeError: list indices must be integers or slices, not str"
  | VStr _ => raise "TypeError: string indices must be integers"
  | _ => raise "TypeError: object is not subscriptable"
  end.

(** [v[0]]. *)
Definition subscript_0 (v : pyval) : M pyval :=
  match v with
  | VList l => or_raise "IndexError: list index out of range" (head l)
  | VStr (String c _) => ret (VStr (String c EmptyString))
  | VStr EmptyString => raise "IndexError: string index out of range"
  | VDict _ => raise "KeyError: 0"
  | _ => raise "TypeError: object is not subscriptable"
  end.

(** [", ".join(l)] and relatives. *)
Fixpoint join (sep : string) (l : list string) : string :=
  match l with
  | [] => ""
  | [x] => x
  | x :: l' => x +:+ sep +:+ join sep l'
  end.

Definition str_of_Z (z : Z) : string :=
  DecimalString.NilZero.string_of_int (Z.to_int z).

(** [str(v)], as an f-string field formats a value. *)
Definition py_str (env : Env) (v : pyval) : string :=
  match v with
  | VNone => "None"
  | VBool true => "True"
  | VBool false => "False"
  | VInt z => str_of_Z z
  | VFloat f => float_str env f
  | VStr s => s
  | _ => container_str env v
  end.

(** A coordinate is a float or [None]. *)
Definition coord_val (c : option float) : pyval :=
  match c with Some f => VFloat f | None => VNone end.

(** [os.path.basename]. *)
Definition basename (path : string) : string :=
  match last (split_on "/" path) with Some b => b | None => path end.

(** ** Primitive actions *)

Definition requests_get (env : Env) (url : string) : M (Z * option pyval) :=
  do! emit (EvHttpGet url) in
  match http env url with
  | HttpRaise e => raise e
  | HttpResponse code body => ret (code, body)
  end.

Definition response_json (body : option pyval) : M pyval :=
  or_raise "JSONDecodeError" body.

Definition datetime_now (env : Env) : M Z :=
  fun st => (Ret (now env (ticks st)),
             {| files := files st; trace := trace st;
                ticks := S (ticks st); reads := reads st |}).

Definition set_file (path : string) (content : option (list byte)) : M unit :=
  fun st => (Ret tt,
             {| files := match content with
                         | Some b => <[path := b]> (files st)
                         | None => files st
                         end;
                trace := trace st; ticks := ticks st; reads := reads st |}).

(** [with open(path, 'wb') as f: f.write(content)]. *)
Definition write_file (env : Env) (path : string) (content : list byte) : M unit :=
  match open_wb_error env path with
  | Some e => raise e
  | None => set_file path (Some content)
  end.

(** [with open(path, 'rb') as f: f.read()]. *)
Definition read_file (env : Env) (path : string) : M (list byte) :=
  fun st =>
    match open_rb_error env path with
    | Some e => (Raise e, st)
    | None =>
        match files st !! path with
        | Some b => (Ret b, st)
        | None => (Raise "FileNotFoundError", st)
        end
    end.

Definition path_exists (path : string) : M bool :=
  fun st => (Ret (bool_decide (is_Some (files st !! path))), st).

(** [os.path.getsize]; raises [OSError] on a missing file. *)
Definition path_getsize (path : string) : M Z :=
  fun st =>
    match files st !! path with
    | Some b => (Ret (Z.of_nat (length b)), st)
    | None => (Raise "FileNotFoundError", st)
    end.

(** ** Location Resolver *)

(** The [try] body of [get_ip_location], lines 30-35. *)
Definition ip_lookup (env : Env) : M (option float * option float) :=
  let! '(_, body) := requests_get env "https://ipinfo.io/json" in
  let! data := response_json body in
  let! v := dict_get data "loc" (VStr "0,0") in
  let! loc := str_split v "," in
  let! s0 := list_index loc 0 in
  let! latitude := py_float env s0 in
  let! s1 := list_index loc 1 in
  let! longitude := py_float env s1 in
  ret (Some latitude, Some longitude).

(** [get_ip_location()], lines 24-38. *)
Definition get_ip_location (env : Env) : M (option float * option float) :=
  try_except (ip_lookup env) (fun e => (* logger.error *) ret (None, None)).

(** The f-string ["Coordinates: {latitude}, {longitude}"]. *)
Definition coordinates_label (env : Env) (latitude longitude : option float) : string :=
  "Coordinates: " +:+ py_str env (coord_val latitude) +:+ ", "
                  +:+ py_str env (coord_val longitude).

Definition geocode_url (env : Env) (api_key : string) (latitude longitude : option float) : string :=
  "https://geocode.reverse.hereapi.com/v1/reverse?at="
    +:+ py_str env (coord_val latitude) +:+ "," +:+ py_str env (coord_val longitude)
    +:+ "&apiKey=" +:+ api_key.

(** An API key is a [str] or [None]. *)
Definition key_val (k : option string) : pyval :=
  match k with Some s => VStr s | None => VNone end.

(** The [try] body of [reverse_geocode], lines 51-63. *)
Definition geocode_query (env : Env) (api_key : option string)
    (latitude longitude : option float) : M pyval :=
  let fallback := VStr (coordinates_label env latitude longitude) in
  let! '(status_code, body) :=
    requests_get env (geocode_url env (py_str env (key_val api_key)) latitude longitude) in
  let fall_through := (* logger.warning *) ret fallback in
  if status_code =? 200 then
    let! data := response_json body in
    let! items := dict_get data "items" (VList []) in
    if truthy items then
      let! items := subscript_key data "items" in
      let! first := subscript_0 items in
      let! address := subscript_key first "address" in
      dict_get address "label" fallback
    else fall_through
  else fall_through.

(** [reverse_geocode(api_key, latitude, longitude)], lines 41-67. *)
Definition reverse_geocode (env : Env) (api_key : option string)
    (latitude longitude : option float) : M pyval :=
  let fallback := VStr (coordinates_label env latitude longitude) in
  if negb (truthy (key_val api_key)) || negb (truthy (coord_val latitude))
     || negb (truthy (coord_val longitude))
  then ret fallback
  else
    try_except (geocode_query env api_key latitude longitude)
               (fun e => (* logger.error *) ret fallback).

(** ** Dispatcher and Notification Composer *)

(** [send_sms_alert(message)], lines 70-76: logs and returns [True]. *)
Definition send_sms_alert (message : string) : M bool :=
  (* logger.info *) ret true.

Definition nl : string := String "010" EmptyString.

Definition audio_error_note : string :=
  nl +:+ nl +:+ "Note: Audio recording could not be attached due to an error.".
Definition audio_missing_note : string :=
  nl +:+ nl +:+ "Note: Audio recording could not be created due to device limitations.".
Definition video_error_note : string :=
  nl +:+ nl +:+ "Note: Video recording could not be attached due to an error.".
Definition video_missing_note : string :=
  nl +:+ nl +:+ "Note: Video recording could not be created due to device limitations.".

(** [msg.attach(p)]. *)
Definition msg_attach (p : part) (msg : message) : message :=
  {| msg_from := msg_from msg; msg_to := msg_to msg;
     msg_subject := msg_subject msg; msg_parts := msg_parts msg ++ [p] |}.

(** [os.path.exists(f) and os.path.getsize(f) > 0]. *)
Definition exists_nonempty (path : string) : M bool :=
  let! e := path_exists path in
  if e then let! n := path_getsize path in ret (0 <? n) else ret false.

(** [MIMEText(text, 'plain')] on a text built at run time (line 91).  The
    four notes are ASCII literals, which [MIMEText] always accepts. *)
Definition mime_text (env : Env) (text : string) : M part :=
  match mime_text_error env text with
  | Some e => raise e
  | None => ret (PText text)
  end.

(** The message-building phase of [send_email_alert], lines 84-127. *)
Definition build_message (env : Env) (sender_email : string)
    (recipients : list string) (subject body audio_file video_file : string) : M message :=
  let msg := {| msg_from := sender_email; msg_to := join ", " recipients;
                msg_subject := subject; msg_parts := [] |} in
  let! t := datetime_now env in
  let full_body := body +:+ nl +:+ nl +:+ "Time of Alert: "
                        +:+ strftime env "%Y-%m-%d %H:%M:%S" t in
  let! body_part := mime_text env full_body in
  let msg := msg_attach body_part msg in
  (* Attach audio file if it exists *)
  let! ok := exists_nonempty audio_file in
  let! msg :=
    if ok then
      try_except
        (let! content := read_file env audio_file in
         ret (msg_attach (PAttach "wav" (basename audio_file) content) msg))
        (fun e => ret (msg_attach (PText audio_error_note) msg))
    else ret (msg_attach (PText audio_missing_note) msg) in
  (* Attach video file if it exists *)
  let! ok := exists_nonempty video_file in
  if ok then
    try_except
      (let! content := read_file env video_file in
       ret (msg_attach (PAttach "avi" (basename video_file) content) msg))
      (fun e => ret (msg_attach (PText video_error_note) msg))
  else ret (msg_attach (PText video_missing_note) msg).

(** One SMTP command: the attempt is observable, then it may raise. *)
Definition smtp_step (ev : event) (err : option exn) : M unit :=
  do! emit ev in
  match err with Some e => raise e | None => ret tt end.

(** [text = msg.as_string()], line 134. *)
Definition msg_as_string (env : Env) (msg : message) : M unit :=
  match as_string_error env msg with
  | Some e => raise e
  | None => ret tt
  end.

(** The sending phase of [send_email_alert], lines 129-141. *)
Definition smtp_send (env : Env) (sender_email sender_password : string)
    (recipients : list string) (msg : message) : M bool :=
  try_except
    (do! smtp_step (EvSmtpConnect "smtp.gmail.com" 587) (smtp_connect env) in
     do! smtp_step EvSmtpStartTls (smtp_starttls env) in
     do! smtp_step (EvSmtpLogin sender_email sender_password)
                   (smtp_login env sender_email sender_password) in
     do! msg_as_string env msg in
     do! smtp_step (EvSmtpSendmail sender_email recipients msg)
                   (smtp_sendmail env sender_email recipients msg) in
     do! smtp_step EvSmtpQuit (smtp_quit env) in
     ret true)
    (fun e => (* logger.error *) ret false).

(** [send_email_alert(...)], lines 79-141. *)
Definition send_email_alert (env : Env) (sender_email sender_password : string)
    (recipients : list string) (subject body audio_file video_file : string) : M bool :=
  let! msg := build_message env sender_email recipients subject body audio_file video_file in
  smtp_send env sender_email sender_password recipients msg.

(** ** Alert Session Controller *)

(** A status callback is any callable or [None]. *)
Definition callback := option (string -> bool -> M unit).

(** The callback [/sos] passes: [status_updates.append(...)]. *)
Definition status_callback (message : string) (success : bool) : M unit :=
  emit (EvStatus message success).

(** [update_status(status, success)], lines 148-151. *)
Definition update_status (cb : callback) (status : string) (success : bool) : M unit :=
  match cb with
  | Some f => f status success
  | None => ret tt
  end.

Definition placeholder_audio : list byte := list_byte_of_string "Placeholder audio file".
Definition placeholder_video : list byte := list_byte_of_string "Placeholder video file".

(** The [seconds] field of a [timedelta] of [d] microseconds. *)
Definition timedelta_seconds (d : Z) : Z := (d / 1000000) mod 86400.

(** [sf.write(path, recording, 44100)]. *)
Definition soundfile_write (env : Env) (path : string) (recording : list byte) : M unit :=
  let '(content, err) := sf_write env path recording in
  do! set_file path content in
  match err with Some e => raise e | None => ret tt end.

(** The audio step of [send_alert], lines 180-192; returns [audio_recorded]. *)
Definition record_audio (env : Env) (cb : callback) (audio_filename : string) : M bool :=
  do! update_status cb "Recording audio..." true in
  try_except
    (let! recording := match sd_rec env with inl e => raise e | inr r => ret r end in
     do! soundfile_write env audio_filename recording in
     do! update_status cb "Audio recorded successfully" true in
     ret true)
    (fun e =>
       do! update_status cb ("Could not record audio: " +:+ e
                             +:+ ". Sending email without audio attachment.") false in
       do! write_file env audio_filename placeholder_audio in
       ret false).

Definition cap_read_next (env : Env) : M (option (list byte)) :=
  fun st =>
    let st' := {| files := files st; trace := trace st;
                  ticks := ticks st; reads := S (reads st) |} in
    match cap_read env (reads st) with
    | ReadRaise e => (Raise e, st')
    | ReadFailed => (Ret None, st')
    | ReadFrame f => (Ret (Some f), st')
    end.

(** The frame loop, lines 203-208; [written] are the frames passed to
    [out.write] so far. *)
Fixpoint video_loop (env : Env) (fuel : nat) (video_filename : string)
    (start_time : Z) (written : list (list byte)) : M unit :=
  match fuel with
  | O => fun st => (Diverge, st)
  | S fuel' =>
      let! t := datetime_now env in
      if timedelta_seconds (t - start_time) <? 10 then
        let! r := cap_read_next env in
        match r with
        | Some frame =>
            do! set_file video_filename
                  (writer_file env video_filename (written ++ [frame])) in
            video_loop env fuel' video_filename start_time (written ++ [frame])
        | None => ret tt
        end
      else ret tt
  end.

(** The video step of [send_alert], lines 194-224; returns [video_recorded]. *)
Definition capture_video (env : Env) (fuel : nat) (cb : callback)
    (video_filename : string) : M bool :=
  do! update_status cb "Recording video..." true in
  try_except
    (match video_capture env with
     | CaptureRaise e => raise e
     | CaptureOpened =>
         do! set_file video_filename (writer_file env video_filename []) in
         let! start_time := datetime_now env in
         do! video_loop env fuel video_filename start_time [] in
         (* cap.release(); out.release() *)
         do! update_status cb "Video recorded successfully" true in
         ret true
     | CaptureClosed =>
         do! update_status cb
               "Could not open video device. Sending email without video attachment." false in
         do! write_file env video_filename placeholder_video in
         ret false
     end)
    (fun e =>
       do! update_status cb ("Error recording video: " +:+ e
                             +:+ ". Sending email without video attachment.") false in
       let! ex := path_exists video_filename in
       do! (if negb ex then write_file env video_filename placeholder_video else ret tt) in
       ret false).

(** The dispatch step of [send_alert], lines 226-243. *)
Definition dispatch (env : Env) (cb : callback) (sender_email sender_password : string)
    (email_recipients : list string) (subject body audio_filename video_filename : string)
    : M bool :=
  do! update_status cb "Sending email alert..." true in
  let! email_success :=
    send_email_alert env sender_email sender_password email_recipients
                     subject body audio_filename video_filename in
  do! (if email_success then update_status cb "Email alert sent successfully" true
       else update_status cb "Failed to send email alert" false) in
  do! update_status cb "Sending SMS alert..." true in
  let! sms_success := send_sms_alert body in
  do! (if sms_success then update_status cb "SMS alert sent successfully" true
       else update_status cb "Failed to send SMS alert" false) in
  do! update_status cb "Emergency alert process completed." true in
  ret (email_success || sms_success).

(** [os.environ.get(key, default)]. *)
Definition environ_get (env : Env) (key default : string) : string :=
  match environ env !! key with Some v => v | None => default end.

Definition default_sender : string := "gokuad021@rmkcet.ac.in".
Definition default_password : string := "sugs hwmo fkxc sazi".

Definition alert_body (env : Env) (location_address : pyval) (latitude longitude : float)
    : string :=
  "Help needed! My current location is " +:+ py_str env location_address
    +:+ ". Latitude: " +:+ float_str env latitude
    +:+ ", Longitude: " +:+ float_str env longitude
    +:+ " and do please checkout ur email!.".

(** [send_alert(api_key, status_callback)], lines 144-243.  [fuel] bounds
    the iterations of the frame loop. *)
Definition send_alert (env : Env) (fuel : nat) (api_key : option string)
    (cb : callback) : M bool :=
  do! update_status cb "Starting emergency alert process..." true in
  do! update_status cb "Detecting location..." true in
  let! '(latitude, longitude) := get_ip_location env in
  match latitude, longitude with
  | Some lat, Some lon =>
      let! location_address := reverse_geocode env api_key latitude longitude in
      do! update_status cb ("Location detected: " +:+ py_str env location_address) true in
      let sender_email := environ_get env "SENDER_EMAIL" default_sender in
      let sender_password := environ_get env "EMAIL_PASSWORD" default_password in
      let email_recipients :=
        split_on "," (environ_get env "EMAIL_RECIPIENTS" default_sender) in
      let subject := "Emergency Alert!" in
      let body := alert_body env location_address lat lon in
      let! now_ := datetime_now env in
      let timestamp := strftime env "%Y%m%d_%H%M%S" now_ in
      let audio_filename := "alert_audio_" +:+ timestamp +:+ ".wav" in
      let video_filename := "alert_video_" +:+ timestamp +:+ ".avi" in
      let! audio_recorded := record_audio env cb audio_filename in
      let! video_recorded := capture_video env fuel cb video_filename in
      dispatch env cb sender_email sender_password email_recipients
               subject body audio_filename video_filename
  | _, _ =>
      do! update_status cb "Unable to fetch location." false in
      ret false
  end.

(** [emergency_sos(api_key, status_callback)], lines 246-250. *)
Definition emergency_sos (env : Env) (fuel : nat) (api_key : option string)
    (cb : callback) : M bool :=
  send_alert env fuel api_key cb.

(** ** Flask routes *)

(** [sos()], lines 259-277.  The route reads the geocoding key, starts
    [emergency_sos] on a daemon thread and answers at once: the model gives
    the computation the thread runs and, beside it, the answer. *)
Definition sos (env : Env) (fuel : nat) : M bool * pyval :=
  let here_maps_api_key := environ_get env "HERE_MAPS_API_KEY" "" in
  let thread :=
    emergency_sos env fuel (Some here_maps_api_key) (Some status_callback) in
  (thread,
   VDict [("status", VStr "Emergency alert initiated");
          ("message", VStr "Help is on the way!")]).

(** [check_status()], lines 280-285. *)
Definition check_status : pyval :=
  VDict [("status", VStr "complete"); ("success", VBool true)].


(** * Concrete worlds

    Small environments on which the definitions are run. *)

Module Scenario.

Definition st0 : state := {| files := ∅; trace := []; ticks := 0; reads := 0 |}.

(** The binary64 values of [12.9] and [77.6]. *)
Definition lat_12_9 : float := S754_finite false 7262054399134925 (-49).
Definition lon_77_6 : float := S754_finite false 5460614548186726 (-46).

Definition show_float (f : float) : string :=
  if SFeqb f lat_12_9 then "12.9"
  else if SFeqb f lon_77_6 then "77.6"
  else if PyFloat.is_zero f then "0.0"
  else "<float>".

(** Epoch seconds stand for every [strftime] format. *)
Definition show_time (format : string) (t : Z) : string := str_of_Z (t / 1000000).

Definition ipinfo (fields : list (string * pyval)) : pyval :=
  VDict (("ip", VStr "203.0.113.7") :: ("country", VStr "IN") :: fields).

Definition here_items (label : pyval) : pyval :=
  VDict [("items",
          VList [VDict [("title", VStr "MG Road");
                        ("address", VDict [("label", label);
                                           ("countryCode", VStr "IND")])]])].

(** A web in which the IP service answers [ip_answer] and the geocoder
    answers [geo_answer]. *)
Definition web (ip_answer geo_answer : http_result) (url : string) : http_result :=
  if String.eqb url "https://ipinfo.io/json" then ip_answer
  else if String.prefix "https://geocode.reverse.hereapi.com/" url then geo_answer
  else HttpRaise "ConnectionError".

Definition web_ok : string -> http_result :=
  web (HttpResponse 200 (Some (ipinfo [("loc", VStr "12.9,77.6")])))
      (HttpResponse 200 (Some (here_items (VStr "MG Road, Bengaluru 560001, India")))).

(** The world in which every device and service works; the clock moves
    four seconds between two readings. *)
Definition working : Env := {|
  environ := ∅;
  http := web_ok;
  now := fun k => 1700000000000000 + 4000000 * Z.of_nat k;
  strftime := show_time;
  float_of_str := PyFloat.of_string;
  float_str := show_float;
  container_str := fun _ => "[...]";
  sd_rec := inr (list_byte_of_string "pcm-samples");
  sf_write := fun _ recording => (Some (list_byte_of_string "RIFF" ++ recording), None);
  video_capture := CaptureOpened;
  cap_read := fun _ => ReadFrame (list_byte_of_string "frame");
  writer_file := fun _ frames => Some (list_byte_of_string "AVI " ++ concat frames);
  open_wb_error := fun _ => None;
  open_rb_error := fun _ => None;
  smtp_connect := None;
  smtp_starttls := None;
  smtp_login := fun _ _ => None;
  smtp_sendmail := fun _ _ _ => None;
  smtp_quit := None;
  mime_text_error := fun _ => None;
  as_string_error := fun _ => None;
|}.

Definition with_http (h : string -> http_result) (env : Env) : Env := {|
  environ := environ env; http := h; now := now env; strftime := strftime env;
  float_of_str := float_of_str env;
  float_str := float_str env; container_str := container_str env;
  sd_rec := sd_rec env; sf_write := sf_write env;
  video_capture := video_capture env; cap_read := cap_read env;
  writer_file := writer_file env;
  open_wb_error := open_wb_error env; open_rb_error := open_rb_error env;
  smtp_connect := smtp_connect env; smtp_starttls := smtp_starttls env;
  smtp_login := smtp_login env; smtp_sendmail := smtp_sendmail env;
  smtp_quit := smtp_quit env;
  mime_text_error := mime_text_error env; as_string_error := as_string_error env;
|}.

Definition with_sd_rec (r : exn + list byte) (env : Env) : Env := {|
  environ := environ env; http := http env; now := now env; strftime := strftime env;
  float_of_str := float_of_str env;
  float_str := float_str env; container_str := container_str env;
  sd_rec := r; sf_write := sf_write env;
  video_capture := video_capture env; cap_read := cap_read env;
  writer_file := writer_file env;
  open_wb_error := open_wb_error env; open_rb_error := open_rb_error env;
  smtp_connect := smtp_connect env; smtp_starttls := smtp_starttls env;
  smtp_login := smtp_login env; smtp_sendmail := smtp_sendmail env;
  smtp_quit := smtp_quit env;
  mime_text_error := mime_text_error env; as_string_error := as_string_error env;
|}.

Definition with_camera (reads : nat -> read_result)
    (writer : string -> list (list byte) -> option (list byte)) (env : Env) : Env := {|
  environ := environ env; http := http env; now := now env; strftime := strftime env;
  float_of_str := float_of_str env;
  float_str := float_str env; container_str := container_str env;
  sd_rec := sd_rec env; sf_write := sf_write env;
  video_capture := video_capture env; cap_read := reads;
  writer_file := writer;
  open_wb_error := open_wb_error env; open_rb_error := open_rb_error env;
  smtp_connect := smtp_connect env; smtp_starttls := smtp_starttls env;
  smtp_login := smtp_login env; smtp_sendmail := smtp_sendmail env;
  smtp_quit := smtp_quit env;
  mime_text_error := mime_text_error env; as_string_error := as_string_error env;
|}.

Definition with_smtp_login (login : string -> string -> option exn) (env : Env) : Env := {|
  environ := environ env; http := http env; now := now env; strftime := strftime env;
  float_of_str := float_of_str env;
  float_str := float_str env; container_str := container_str env;
  sd_rec := sd_rec env; sf_write := sf_write env;
  video_capture := video_capture env; cap_read := cap_read env;
  writer_file := writer_file env;
  open_wb_error := open_wb_error env; open_rb_error := open_rb_error env;
  smtp_connect := smtp_connect env; smtp_starttls := smtp_starttls env;
  smtp_login := login; smtp_sendmail := smtp_sendmail env;
  smtp_quit := smtp_quit env;
  mime_text_error := mime_text_error env; as_string_error := as_string_error env;
|}.

(** The geocoder answers with an empty label. *)
Definition empty_label : Env :=
  with_http (web (HttpResponse 200 (Some (ipinfo [("loc", VStr "12.9,77.6")])))
                 (HttpResponse 200 (Some (here_items (VStr ""))))) working.

(** The IP service answers without a ['loc'] field. *)
Definition no_loc_field : Env :=
  with_http (web (HttpResponse 200 (Some (ipinfo [])))
                 (HttpRaise "ConnectionError")) working.

(** No network at all. *)
Definition no_network : Env :=
  with_http (fun _ => HttpRaise "ConnectionError") working.

(** No microphone: [sd.rec] raises. *)
Definition no_microphone : Env :=
  with_sd_rec (inl "Error querying device -1") working.

(** The camera opens, its first read fails, and the writer, which could
    not open its output, left no file. *)
Definition dead_camera : Env :=
  with_camera (fun _ => ReadFailed) (fun _ _ => None) working.

(** The mail relay rejects the credential. *)
Definition bad_credential : Env :=
  with_smtp_login (fun _ _ => Some "SMTPAuthenticationError: (535, b'5.7.8 Username and Password not accepted')") working.

End Scenario.
(** * Vocabulary of the properties *)

(** A computation that neither raises nor diverges. *)
Definition returns {A} (m : M A) (st : state) : Prop :=
  exists a st', m st = (Ret a, st').

(** [emits P m]: whatever the start state, [m] only appends events to the
    trace, and every appended event satisfies [P]. *)

Definition emits {A} (P : event -> Prop) (m : M A) : Prop :=
  forall st, exists evs : list event,
    trace (snd (m st)) = trace st ++ evs /\ Forall P evs.

(** [oblivious m]: the outcome of [m] does not depend on the state it
    starts in (it is decided by the environment alone). *)
Definition oblivious {A} (m : M A) : Prop :=
  forall st1 st2, fst (m st1) = fst (m st2).

(** The guard on line 47. *)
Definition geocode_guard (api_key : option string) (latitude longitude : option float) : bool :=
  negb (truthy (key_val api_key)) || negb (truthy (coord_val latitude))
  || negb (truthy (coord_val longitude)).

(** The conditions under which the spec promises the coordinate label. *)
Inductive fallback_case (env : Env) (api_key : option string)
    (latitude longitude : option float) (st : state) : Prop :=
| FbNoCredential :
    api_key = None \/ api_key = Some "" ->
    fallback_case env api_key latitude longitude st
| FbNoCoordinates :
    latitude = None \/ longitude = None ->
    fallback_case env api_key latitude longitude st
| FbNon200 code body :
    http env (geocode_url env (py_str env (key_val api_key)) latitude longitude)
      = HttpResponse code body ->
    code <> 200 ->
    fallback_case env api_key latitude longitude st
| FbEmptyResult d :
    http env (geocode_url env (py_str env (key_val api_key)) latitude longitude)
      = HttpResponse 200 (Some (VDict d)) ->
    dict_lookup "items" d = None \/ dict_lookup "items" d = Some (VList []) ->
    fallback_case env api_key latitude longitude st
| FbException e st' :
    geocode_query env api_key latitude longitude st = (Raise e, st') ->
    fallback_case env api_key latitude longitude st.


(** The ways the IP lookup errs: network failure or a malformed response
    (a body that is not JSON, not an object, or whose ['loc'] is not a
    string whose first two comma-separated fields [float()] accepts). *)
Inductive lookup_error (env : Env) : Prop :=
| LeNetwork e :
    http env "https://ipinfo.io/json" = HttpRaise e ->
    lookup_error env
| LeNotJson code :
    http env "https://ipinfo.io/json" = HttpResponse code None ->
    lookup_error env
| LeNotAnObject code v :
    http env "https://ipinfo.io/json" = HttpResponse code (Some v) ->
    (forall d, v <> VDict d) ->
    lookup_error env
| LeLocNotAString code d v :
    http env "https://ipinfo.io/json" = HttpResponse code (Some (VDict d)) ->
    dict_lookup "loc" d = Some v ->
    (forall s, v <> VStr s) ->
    lookup_error env
| LeLocUnparsable code d s :
    http env "https://ipinfo.io/json" = HttpResponse code (Some (VDict d)) ->
    dict_lookup "loc" d = Some (VStr s) ->
    (split_on "," s !! 0%nat) ≫= float_of_str env = None
    \/ (split_on "," s !! 1%nat) ≫= float_of_str env = None ->
    lookup_error env.

(** The two kinds of capture artifact and their representations in a
    message. *)
Inductive kind := Audio | Video.

Definition subtype_of (k : kind) : string :=
  match k with Audio => "wav" | Video => "avi" end.

Definition error_note (k : kind) : string :=
  match k with Audio => audio_error_note | Video => video_error_note end.

Definition missing_note (k : kind) : string :=
  match k with Audio => audio_missing_note | Video => video_missing_note end.

Definition is_attachment (k : kind) (p : part) : bool :=
  match p with
  | PAttach subtype _ _ => String.eqb subtype (subtype_of k)
  | PText _ => false
  end.

Definition is_note (k : kind) (p : part) : bool :=
  match p with
  | PText text => String.eqb text (error_note k) || String.eqb text (missing_note k)
  | PAttach _ _ _ => false
  end.

Definition attachments (k : kind) (msg : message) : nat :=
  length (List.filter (is_attachment k) (msg_parts msg)).

Definition notes (k : kind) (msg : message) : nat :=
  length (List.filter (is_note k) (msg_parts msg)).

(** What the file at [path] stands for in the message, read off the file
    system and the read oracle: the attachment when the file is there, not
    empty and readable; a note otherwise. *)
Definition representation (env : Env) (st : state) (k : kind) (path : string) : part :=
  match files st !! path with
  | Some content =>
      if 0 <? Z.of_nat (length content) then
        match open_rb_error env path with
        | None => PAttach (subtype_of k) (basename path) content
        | Some _ => PText (error_note k)
        end
      else PText (missing_note k)
  | None => PText (missing_note k)
  end.

(** The state after one call of [datetime.now()]. *)
Definition tick (st : state) : state :=
  {| files := files st; trace := trace st; ticks := S (ticks st); reads := reads st |}.

Definition full_body (env : Env) (body : string) (t : Z) : string :=
  body +:+ nl +:+ nl +:+ "Time of Alert: " +:+ strftime env "%Y-%m-%d %H:%M:%S" t.

Fixpoint newlines (s : string) : nat :=
  match s with
  | EmptyString => 0
  | String c s' => (if Ascii.eqb c "010" then 1 else 0) + newlines s'
  end.

(** A failure of the email transport: connection, TLS, authentication,
    relay rejection, or closing the session. *)
Inductive smtp_failure (env : Env) (sender_email sender_password : string)
    (recipients : list string) (msg : message) : Prop :=
| SfConnect e :
    smtp_connect env = Some e ->
    smtp_failure env sender_email sender_password recipients msg
| SfStartTls e :
    smtp_starttls env = Some e ->
    smtp_failure env sender_email sender_password recipients msg
| SfLogin e :
    smtp_login env sender_email sender_password = Some e ->
    smtp_failure env sender_email sender_password recipients msg
| SfSendmail e :
    smtp_sendmail env sender_email recipients msg = Some e ->
    smtp_failure env sender_email sender_password recipients msg
| SfQuit e :
    smtp_quit env = Some e ->
    smtp_failure env sender_email sender_password recipients msg.

(** The callbacks of the repository: the one of [/sos], or none. *)
Definition callback_of (observed : bool) : callback :=
  if observed then Some status_callback else None.

(** [ret_sat Q m]: whenever [m] returns, the value satisfies [Q]. *)
Definition ret_sat {A} (Q : A -> Prop) (m : M A) : Prop :=
  forall st a st', m st = (Ret a, st') -> Q a.

(** Every SMTP login in a trace segment uses the password [pw]. *)
Definition login_with (pw : string) (ev : event) : Prop :=
  match ev with
  | EvSmtpLogin _ p => p = pw
  | _ => True
  end.

(** The message [build_message] composes in state [st], when it composes
    one. *)
Definition composed (env : Env) (st : state) (sender_email : string)
    (recipients : list string) (subject body audio_file video_file : string) : message :=
  {| msg_from := sender_email; msg_to := join ", " recipients;
     msg_subject := subject;
     msg_parts := [PText (full_body env body (now env (ticks st)));
                   representation env st Audio audio_file;
                   representation env st Video video_file] |}.

(** The five SMTP commands of one delivery, in the order of lines 131-136. *)
Definition smtp_commands (sender_email sender_password : string)
    (recipients : list string) (msg : message) : list event :=
  [EvSmtpConnect "smtp.gmail.com" 587; EvSmtpStartTls;
   EvSmtpLogin sender_email sender_password;
   EvSmtpSendmail sender_email recipients msg; EvSmtpQuit].

(** How far the sending phase gets: the number of SMTP commands it
    attempts.  It stops at the first command that raises, and after the
    login when the message cannot be serialised. *)
Definition smtp_reached (env : Env) (sender_email sender_password : string)
    (recipients : list string) (msg : message) : nat :=
  match smtp_connect env with Some _ => 1 | None =>
  match smtp_starttls env with Some _ => 2 | None =>
  match smtp_login env sender_email sender_password with Some _ => 3 | None =>
  match as_string_error env msg with Some _ => 3 | None =>
  match smtp_sendmail env sender_email recipients msg with Some _ => 4 | None => 5
  end end end end end.

(** Nothing raised in the sending phase. *)
Definition smtp_delivered (env : Env) (sender_email sender_password : string)
    (recipients : list string) (msg : message) : bool :=
  match smtp_connect env, smtp_starttls env,
        smtp_login env sender_email sender_password, as_string_error env msg,
        smtp_sendmail env sender_email recipients msg, smtp_quit env with
  | None, None, None, None, None, None => true
  | _, _, _, _, _, _ => false
  end.

(** The state after [evs] were appended to the trace. *)
Definition logged (evs : list event) (st : state) : state :=
  {| files := files st; trace := trace st ++ evs; ticks := ticks st; reads := reads st |}.

(** * More vocabulary *)

(** The audio capture fails: [sd.rec]/[sd.wait] raise, or [sf.write]
    raises (leaving a file or not). *)
Inductive audio_failure (env : Env) (path : string) : Prop :=
| AfDevice e :
    sd_rec env = inl e -> audio_failure env path
| AfWrite recording partial e :
    sd_rec env = inr recording ->
    sf_write env path recording = (partial, Some e) ->
    audio_failure env path.

(** [touches S m]: [m] leaves every file whose name is not in [S] as it
    was (neither written nor removed). *)
Definition touches {A} (S : string -> Prop) (m : M A) : Prop :=
  forall st path, ~ S path -> files (snd (m st)) !! path = files st !! path.

(** From any reading of the clock on, one of the next [fuel] readings is
    ten seconds or more (in the seconds field) after it. *)
Definition clock_progress (env : Env) (fuel : nat) : Prop :=
  forall k, exists n, (n < fuel)%nat
    /\ 10 <= timedelta_seconds (now env (S k + n) - now env k).

(** The two artifact names of a session whose clock reads [t] at line 174. *)
Definition audio_name (env : Env) (t : Z) : string :=
  "alert_audio_" +:+ strftime env "%Y%m%d_%H%M%S" t +:+ ".wav".
Definition video_name (env : Env) (t : Z) : string :=
  "alert_video_" +:+ strftime env "%Y%m%d_%H%M%S" t +:+ ".avi".

(** An HTTP request, if the event is one, goes to a URL in [U]. *)
Definition http_to (U : string -> Prop) (ev : event) : Prop :=
  match ev with
  | EvHttpGet url => U url
  | _ => True
  end.

(** An SMTP login or delivery, if the event is one, carries this envelope. *)
Definition envelope (sender_email sender_password : string)
    (recipients : list string) (subject : string) (ev : event) : Prop :=
  match ev with
  | EvSmtpLogin u p => u = sender_email /\ p = sender_password
  | EvSmtpSendmail s r msg =>
      s = sender_email /\ r = recipients
      /\ msg_from msg = sender_email /\ msg_to msg = join ", " recipients
      /\ msg_subject msg = subject
  | _ => True
  end.

(** No SMTP command. *)
Definition not_smtp (ev : event) : Prop :=
  match ev with
  | EvHttpGet _ | EvStatus _ _ => True
  | _ => False
  end.

(** More worlds. *)
Module Edge.

Definition with_smtp_quit (q : option exn) (env : Env) : Env := {|
  environ := environ env; http := http env; now := now env; strftime := strftime env;
  float_of_str := float_of_str env;
  float_str := float_str env; container_str := container_str env;
  sd_rec := sd_rec env; sf_write := sf_write env;
  video_capture := video_capture env; cap_read := cap_read env;
  writer_file := writer_file env;
  open_wb_error := open_wb_error env; open_rb_error := open_rb_error env;
  smtp_connect := smtp_connect env; smtp_starttls := smtp_starttls env;
  smtp_login := smtp_login env; smtp_sendmail := smtp_sendmail env;
  smtp_quit := q;
  mime_text_error := mime_text_error env; as_string_error := as_string_error env;
|}.

Definition with_video_capture (c : capture_result) (env : Env) : Env := {|
  environ := environ env; http := http env; now := now env; strftime := strftime env;
  float_of_str := float_of_str env;
  float_str := float_str env; container_str := container_str env;
  sd_rec := sd_rec env; sf_write := sf_write env;
  video_capture := c; cap_read := cap_read env;
  writer_file := writer_file env;
  open_wb_error := open_wb_error env; open_rb_error := open_rb_error env;
  smtp_connect := smtp_connect env; smtp_starttls := smtp_starttls env;
  smtp_login := smtp_login env; smtp_sendmail := smtp_sendmail env;
  smtp_quit := smtp_quit env;
  mime_text_error := mime_text_error env; as_string_error := as_string_error env;
|}.

Definition with_now (clock : nat -> Z) (env : Env) : Env := {|
  environ := environ env; http := http env; now := clock; strftime := strftime env;
  float_of_str := float_of_str env;
  float_str := float_str env; container_str := container_str env;
  sd_rec := sd_rec env; sf_write := sf_write env;
  video_capture := video_capture env; cap_read := cap_read env;
  writer_file := writer_file env;
  open_wb_error := open_wb_error env; open_rb_error := open_rb_error env;
  smtp_connect := smtp_connect env; smtp_starttls := smtp_starttls env;
  smtp_login := smtp_login env; smtp_sendmail := smtp_sendmail env;
  smtp_quit := smtp_quit env;
  mime_text_error := mime_text_error env; as_string_error := as_string_error env;
|}.

Definition with_open_wb_error (err : string -> option exn) (env : Env) : Env := {|
  environ := environ env; http := http env; now := now env; strftime := strftime env;
  float_of_str := float_of_str env;
  float_str := float_str env; container_str := container_str env;
  sd_rec := sd_rec env; sf_write := sf_write env;
  video_capture := video_capture env; cap_read := cap_read env;
  writer_file := writer_file env;
  open_wb_error := err; open_rb_error := open_rb_error env;
  smtp_connect := smtp_connect env; smtp_starttls := smtp_starttls env;
  smtp_login := smtp_login env; smtp_sendmail := smtp_sendmail env;
  smtp_quit := smtp_quit env;
  mime_text_error := mime_text_error env; as_string_error := as_string_error env;
|}.

Definition with_mime_text_error (err : string -> option exn) (env : Env) : Env := {|
  environ := environ env; http := http env; now := now env; strftime := strftime env;
  float_of_str := float_of_str env;
  float_str := float_str env; container_str := container_str env;
  sd_rec := sd_rec env; sf_write := sf_write env;
  video_capture := video_capture env; cap_read := cap_read env;
  writer_file := writer_file env;
  open_wb_error := open_wb_error env; open_rb_error := open_rb_error env;
  smtp_connect := smtp_connect env; smtp_starttls := smtp_starttls env;
  smtp_login := smtp_login env; smtp_sendmail := smtp_sendmail env;
  smtp_quit := smtp_quit env;
  mime_text_error := err; as_string_error := as_string_error env;
|}.

Definition with_as_string_error (err : message -> option exn) (env : Env) : Env := {|
  environ := environ env; http := http env; now := now env; strftime := strftime env;
  float_of_str := float_of_str env;
  float_str := float_str env; container_str := container_str env;
  sd_rec := sd_rec env; sf_write := sf_write env;
  video_capture := video_capture env; cap_read := cap_read env;
  writer_file := writer_file env;
  open_wb_error := open_wb_error env; open_rb_error := open_rb_error env;
  smtp_connect := smtp_connect env; smtp_starttls := smtp_starttls env;
  smtp_login := smtp_login env; smtp_sendmail := smtp_sendmail env;
  smtp_quit := smtp_quit env;
  mime_text_error := mime_text_error env; as_string_error := err;
|}.

(** The code point U+D800, a lone surrogate, in its three-byte form. *)
Definition lone_surrogate : string := String "237" (String "160" (String "128" EmptyString)).

Fixpoint contains (needle hay : string) : bool :=
  String.prefix needle hay
  || match hay with
     | String _ rest => contains needle rest
     | EmptyString => false
     end.

(** [MIMEText] cannot encode a text that holds the lone surrogate. *)
Definition rejects_surrogate (text : string) : option exn :=
  if contains lone_surrogate text
  then Some "UnicodeEncodeError: 'utf-8' codec can't encode character: surrogates not allowed"
  else None.

(** The geocoder answers with a label that holds a lone surrogate. *)
Definition unencodable_label : Env :=
  with_mime_text_error rejects_surrogate
    (Scenario.with_http
       (Scenario.web
          (HttpResponse 200 (Some (Scenario.ipinfo [("loc", VStr "12.9,77.6")])))
          (HttpResponse 200 (Some (Scenario.here_items (VStr lone_surrogate)))))
       Scenario.working).

(** [msg.as_string()] refuses a sender address that carries an embedded
    [Bcc] header line. *)
Definition header_injection (msg : message) : option exn :=
  if contains (String "010" EmptyString +:+ "Bcc:") (msg_from msg)
  then Some "HeaderParseError: header value appears to contain an embedded header"
  else None.

Definition with_environ (vars : gmap string string) (env : Env) : Env := {|
  environ := vars; http := http env; now := now env; strftime := strftime env;
  float_of_str := float_of_str env;
  float_str := float_str env; container_str := container_str env;
  sd_rec := sd_rec env; sf_write := sf_write env;
  video_capture := video_capture env; cap_read := cap_read env;
  writer_file := writer_file env;
  open_wb_error := open_wb_error env; open_rb_error := open_rb_error env;
  smtp_connect := smtp_connect env; smtp_starttls := smtp_starttls env;
  smtp_login := smtp_login env; smtp_sendmail := smtp_sendmail env;
  smtp_quit := smtp_quit env;
  mime_text_error := mime_text_error env; as_string_error := as_string_error env;
|}.

Definition two_line_sender : string :=
  "alerts@example.org" +:+ String "010" EmptyString +:+ "Bcc: third@example.org".

(** The configured sender address holds a line break. *)
Definition unserialisable : Env :=
  with_environ {[ "SENDER_EMAIL" := two_line_sender ]}
    (with_as_string_error header_injection Scenario.working).

(** The IP service answers 503 with a body that still carries a location,
    and a third field after the coordinates. *)
Definition error_status_with_loc : Env :=
  Scenario.with_http
    (Scenario.web
       (HttpResponse 503 (Some (Scenario.ipinfo [("loc", VStr "12.9,77.6,910")])))
       (HttpRaise "ConnectionError"))
    Scenario.working.

(** The relay takes the message and drops the connection on [QUIT]. *)
Definition quit_fails : Env :=
  with_smtp_quit (Some "SMTPServerDisconnected: Connection unexpectedly closed")
    Scenario.working.

(** The camera does not open. *)
Definition camera_closed : Env := with_video_capture CaptureClosed Scenario.working.

(** The camera opens and the first read raises. *)
Definition camera_raises : Env :=
  Scenario.with_camera (fun _ => ReadRaise "cv2.error: can't grab frame")
    (writer_file Scenario.working) Scenario.working.

(** The clock is set back by one hour after its first reading. *)
Definition clock_set_back : Env :=
  with_now (fun k => match k with
                     | O => 1700000000000000
                     | S k' => 1699996400000000 + 4000000 * Z.of_nat k'
                     end) Scenario.working.

(** No microphone, and a directory that cannot be written to. *)
Definition read_only_no_microphone : Env :=
  with_open_wb_error (fun _ => Some "PermissionError: [Errno 13] Permission denied")
    Scenario.no_microphone.

(** A file system that already holds a recording. *)
Definition st_with (path : string) (content : list byte) : state :=
  {| files := {[ path := content ]}; trace := []; ticks := 0; reads := 0 |}.

End Edge.

(** [aborts P e m st]: started in [st], [m] raises [e], having appended
    only events that satisfy [P]. *)
Definition aborts {A} (P : event -> Prop) (e : exn) (m : M A) (st : state) : Prop :=
  fst (m st) = Raise e
  /\ exists evs, trace (snd (m st)) = trace st ++ evs /\ Forall P evs.
(** * Properties *)

(** ** Running the monad *)

Lemma bind_Ret {A B} (m : M A) (k : A -> M B) st a st' :
  m st = (Ret a, st') -> bind m k st = k a st'.
Proof. unfold bind. intros ->. reflexivity. Qed.

Lemma bind_Raise {A B} (m : M A) (k : A -> M B) st e st' :
  m st = (Raise e, st') -> bind m k st = (Raise e, st').
Proof. unfold bind. intros ->. reflexivity. Qed.

Lemma bind_Diverge {A B} (m : M A) (k : A -> M B) st st' :
  m st = (Diverge, st') -> bind m k st = (Diverge, st').
Proof. unfold bind. intros ->. reflexivity. Qed.

Lemma try_except_Ret {A} (m : M A) h st a st' :
  m st = (Ret a, st') -> try_except m h st = (Ret a, st').
Proof. unfold try_except. intros ->. reflexivity. Qed.

Lemma try_except_Raise {A} (m : M A) h st e st' :
  m st = (Raise e, st') -> try_except m h st = h e st'.
Proof. unfold try_except. intros ->. reflexivity. Qed.

(** A [try]/[except] whose handler returns never raises, whatever its body
    does, unless the body diverges. *)
Lemma try_except_returns {A} (m : M A) (h : exn -> M A) st :
  (forall e st', returns (h e) st') ->
  fst (m st) <> Diverge -> returns (try_except m h) st.
Proof.
  intros Hh Hd. unfold returns, try_except.
  destruct (m st) as [[a | e | ] st'] eqn:E; simpl in Hd.
  - eauto.
  - apply Hh.
  - congruence.
Qed.

(** ** Events emitted by a computation *)

Lemma emits_nothing {A} (P : event -> Prop) (m : M A) :
  (forall st, trace (snd (m st)) = trace st) -> emits P m.
Proof.
  intros H st. exists []. rewrite H, app_nil_r. split; [reflexivity | constructor].
Qed.

Lemma emits_ret {A} P (a : A) : emits P (ret a).
Proof. apply emits_nothing. reflexivity. Qed.

Lemma emits_raise {A} P e : emits P (@raise A e).
Proof. apply emits_nothing. reflexivity. Qed.

Lemma emits_emit (P : event -> Prop) ev : P ev -> emits P (emit ev).
Proof.
  intros H st. exists [ev]. split; [reflexivity | repeat constructor; exact H].
Qed.

Lemma emits_bind {A B} P (m : M A) (k : A -> M B) :
  emits P m -> (forall a, emits P (k a)) -> emits P (bind m k).
Proof.
  intros Hm Hk st. unfold bind.
  destruct (Hm st) as (evs & Ht & Hp).
  destruct (m st) as [[a | e | ] st1]; simpl in Ht.
  - destruct (Hk a st1) as (evs' & Ht' & Hp').
    exists (evs ++ evs'). rewrite Ht', Ht, app_assoc.
    split; [reflexivity | apply Forall_app; auto].
  - exists evs. auto.
  - exists evs. auto.
Qed.

Lemma emits_try_except {A} P (m : M A) (h : exn -> M A) :
  emits P m -> (forall e, emits P (h e)) -> emits P (try_except m h).
Proof.
  intros Hm Hh st. unfold try_except.
  destruct (Hm st) as (evs & Ht & Hp).
  destruct (m st) as [[a | e | ] st1]; simpl in Ht.
  - exists evs. auto.
  - destruct (Hh e st1) as (evs' & Ht' & Hp').
    exists (evs ++ evs'). rewrite Ht', Ht, app_assoc.
    split; [reflexivity | apply Forall_app; auto].
  - exists evs. auto.
Qed.

Lemma emits_or_raise {A} P e (o : option A) : emits P (or_raise e o).
Proof. destruct o; [apply emits_ret | apply emits_raise]. Qed.

Lemma emits_datetime_now P env : emits P (datetime_now env).
Proof. apply emits_nothing. reflexivity. Qed.

Lemma emits_set_file P path content : emits P (set_file path content).
Proof. apply emits_nothing. reflexivity. Qed.

Lemma emits_write_file P env path content : emits P (write_file env path content).
Proof.
  unfold write_file. destruct (open_wb_error env path);
    [apply emits_raise | apply emits_set_file].
Qed.

Lemma emits_read_file P env path : emits P (read_file env path).
Proof.
  apply emits_nothing. intros st. unfold read_file.
  destruct (open_rb_error env path); [reflexivity|].
  destruct (files st !! path); reflexivity.
Qed.

Lemma emits_path_exists P path : emits P (path_exists path).
Proof. apply emits_nothing. reflexivity. Qed.

Lemma emits_path_getsize P path : emits P (path_getsize path).
Proof.
  apply emits_nothing. intros st. unfold path_getsize.
  destruct (files st !! path); reflexivity.
Qed.

Lemma emits_cap_read_next P env : emits P (cap_read_next env).
Proof.
  apply emits_nothing. intros st. unfold cap_read_next.
  destruct (cap_read env (reads st)); reflexivity.
Qed.

Create HintDb emits.
#[local] Hint Resolve emits_ret emits_raise emits_emit emits_or_raise
  emits_datetime_now emits_set_file emits_write_file emits_read_file
  emits_path_exists emits_path_getsize emits_cap_read_next : emits.

(** Decompose a goal [emits P m] along the structure of [m]. *)
Ltac emits_step :=
  match goal with
  | |- emits _ (bind _ _) => apply emits_bind; [| intros ?]
  | |- emits _ (try_except _ _) => apply emits_try_except; [| intros ?]
  | |- emits _ (match ?x with _ => _ end) => destruct x
  | |- emits _ (let '(_, _) := ?x in _) => destruct x
  | |- emits _ _ => solve [auto with emits]
  end.


(** ** Computations that do not read the state *)

Lemma oblivious_ret {A} (a : A) : oblivious (ret a).
Proof. intros st1 st2. reflexivity. Qed.

Lemma oblivious_raise {A} e : oblivious (@raise A e).
Proof. intros st1 st2. reflexivity. Qed.

Lemma oblivious_or_raise {A} e (o : option A) : oblivious (or_raise e o).
Proof. destruct o; [apply oblivious_ret | apply oblivious_raise]. Qed.

Lemma oblivious_emit ev : oblivious (emit ev).
Proof. intros st1 st2. reflexivity. Qed.

Lemma oblivious_bind {A B} (m : M A) (k : A -> M B) :
  oblivious m -> (forall a, oblivious (k a)) -> oblivious (bind m k).
Proof.
  intros Hm Hk st1 st2. unfold bind. specialize (Hm st1 st2).
  destruct (m st1) as [[a | e | ] s1], (m st2) as [[a' | e' | ] s2];
    simpl in Hm; try discriminate; try reflexivity.
  - injection Hm as ->. apply Hk.
  - injection Hm as ->. reflexivity.
Qed.

Lemma oblivious_try_except {A} (m : M A) (h : exn -> M A) :
  oblivious m -> (forall e, oblivious (h e)) -> oblivious (try_except m h).
Proof.
  intros Hm Hh st1 st2. unfold try_except. specialize (Hm st1 st2).
  destruct (m st1) as [[a | e | ] s1], (m st2) as [[a' | e' | ] s2];
    simpl in Hm; try discriminate; try reflexivity.
  - exact Hm.
  - injection Hm as ->. apply Hh.
Qed.

Create HintDb oblivious.
#[local] Hint Resolve oblivious_ret oblivious_raise oblivious_or_raise
  oblivious_emit : oblivious.

Ltac oblivious_step :=
  match goal with
  | |- oblivious (bind _ _) => apply oblivious_bind; [| intros ?]
  | |- oblivious (try_except _ _) => apply oblivious_try_except; [| intros ?]
  | |- oblivious (match ?x with _ => _ end) => destruct x
  | |- oblivious (let '(_, _) := ?x in _) => destruct x
  | |- oblivious _ => solve [auto with oblivious]
  end.
#[local] Arguments Z.eqb : simpl never.
#[local] Arguments Z.ltb : simpl never.

(** ** Location Resolver *)

Lemma coordinates_label_nonempty env latitude longitude :
  coordinates_label env latitude longitude <> "".
Proof. unfold coordinates_label. simpl. discriminate. Qed.

Lemma truthy_coord_zero x : PyFloat.is_zero x = true -> truthy (coord_val (Some x)) = false.
Proof. simpl. unfold PyFloat.truthy. intros ->. reflexivity. Qed.

Lemma reverse_geocode_guarded env api_key latitude longitude st :
  geocode_guard api_key latitude longitude = true ->
  reverse_geocode env api_key latitude longitude st
  = (Ret (VStr (coordinates_label env latitude longitude)), st).
Proof. unfold reverse_geocode, geocode_guard. intros ->. reflexivity. Qed.

Lemma reverse_geocode_queried env api_key latitude longitude st :
  geocode_guard api_key latitude longitude = false ->
  reverse_geocode env api_key latitude longitude st
  = try_except (geocode_query env api_key latitude longitude)
      (fun _ => ret (VStr (coordinates_label env latitude longitude))) st.
Proof. unfold reverse_geocode, geocode_guard. intros ->. reflexivity. Qed.

(** The query itself never diverges. *)
Lemma geocode_query_not_Diverge env api_key latitude longitude st :
  fst (geocode_query env api_key latitude longitude st) <> Diverge.
Proof.
  unfold geocode_query, requests_get, response_json, dict_get, subscript_key,
    subscript_0, or_raise, bind, emit, ret, raise.
  repeat (case_match; simpl; try discriminate).
Qed.

Lemma reverse_geocode_returns env api_key latitude longitude st :
  returns (reverse_geocode env api_key latitude longitude) st.
Proof.
  destruct (geocode_guard api_key latitude longitude) eqn:G.
  - eexists _, _. apply reverse_geocode_guarded, G.
  - unfold returns. rewrite (reverse_geocode_queried _ _ _ _ _ G).
    apply try_except_returns.
    + intros e st'. eexists _, _. reflexivity.
    + apply geocode_query_not_Diverge.
Qed.

Lemma reverse_geocode_fallback env api_key latitude longitude st :
  fallback_case env api_key latitude longitude st ->
  fst (reverse_geocode env api_key latitude longitude st)
  = Ret (VStr (coordinates_label env latitude longitude)).
Proof.
  intros Hc.
  destruct (geocode_guard api_key latitude longitude) eqn:G.
  { rewrite reverse_geocode_guarded by exact G. reflexivity. }
  rewrite reverse_geocode_queried by exact G.
  destruct Hc as [Hk | Hc | code body Hh Hcode | d Hh Hi | e st' He].
  - unfold geocode_guard in G. destruct Hk as [-> | ->]; discriminate.
  - unfold geocode_guard in G.
    destruct Hc as [-> | ->]; simpl in G;
      rewrite ?orb_true_r in G; discriminate.
  - unfold try_except, geocode_query, requests_get, bind, emit. simpl.
    rewrite Hh. apply Z.eqb_neq in Hcode. simpl. rewrite Hcode. reflexivity.
  - unfold try_except, geocode_query, requests_get, bind, emit. simpl.
    rewrite Hh. simpl. destruct Hi as [-> | ->]; reflexivity.
  - rewrite (try_except_Raise _ _ _ _ _ He). reflexivity.
Qed.

(** The label the provider's first result carries. *)
Lemma reverse_geocode_provider_label env api_key latitude longitude st d first rest addr :
  geocode_guard api_key latitude longitude = false ->
  http env (geocode_url env (py_str env (key_val api_key)) latitude longitude)
    = HttpResponse 200 (Some (VDict d)) ->
  dict_lookup "items" d = Some (VList (VDict first :: rest)) ->
  dict_lookup "address" first = Some (VDict addr) ->
  fst (reverse_geocode env api_key latitude longitude st)
  = Ret (match dict_lookup "label" addr with
         | Some label => label
         | None => VStr (coordinates_label env latitude longitude)
         end).
Proof.
  intros G Hh Hi Ha.
  rewrite reverse_geocode_queried by exact G.
  unfold try_except, geocode_query, requests_get, bind, emit. simpl.
  rewrite Hh. simpl. rewrite Hi. simpl. rewrite Ha. simpl. reflexivity.
Qed.

Lemma ip_lookup_not_Diverge env st : fst (ip_lookup env st) <> Diverge.
Proof.
  unfold ip_lookup, requests_get, response_json, dict_get, str_split,
    list_index, py_float, or_raise, bind, emit, ret, raise.
  repeat (case_match; simpl; try discriminate).
Qed.

Lemma get_ip_location_returns env st : returns (get_ip_location env) st.
Proof.
  apply try_except_returns.
  - intros e st'. eexists _, _. reflexivity.
  - apply ip_lookup_not_Diverge.
Qed.

(** Any exception inside the [try] block yields the absent pair. *)
Lemma get_ip_location_raise env st e st' :
  ip_lookup env st = (Raise e, st') ->
  get_ip_location env st = (Ret (None, None), st').
Proof.
  intros H. unfold get_ip_location. rewrite (try_except_Raise _ _ _ _ _ H).
  reflexivity.
Qed.

Lemma lookup_error_raises env st :
  lookup_error env -> exists e st', ip_lookup env st = (Raise e, st').
Proof.
  intros [e Hh | code Hh | code v Hh Hv | code d v Hh Hl Hv | code d s Hh Hl Hp];
    unfold ip_lookup, requests_get, bind, emit; simpl; rewrite Hh; simpl.
  - eauto.
  - eauto.
  - destruct v; simpl; eauto. exfalso. eapply Hv. reflexivity.
  - rewrite Hl. destruct v; simpl; eauto. exfalso. eapply Hv. reflexivity.
  - rewrite Hl. simpl. unfold list_index, py_float, bind, or_raise.
    destruct (split_on "," s !! 0%nat) as [s0|]; simpl in *; eauto.
    destruct (float_of_str env s0); simpl in *; eauto.
    destruct (split_on "," s !! 1%nat) as [s1|]; simpl in *; eauto.
    destruct (float_of_str env s1); simpl in *; eauto.
    destruct Hp; discriminate.
Qed.

Lemma get_ip_location_error env st :
  lookup_error env -> fst (get_ip_location env st) = Ret (None, None).
Proof.
  intros H. destruct (lookup_error_raises env st H) as (e & st' & Hr).
  rewrite (get_ip_location_raise _ _ _ _ Hr). reflexivity.
Qed.

(** A response object without ['loc'] is read as ['0,0']. *)
Lemma get_ip_location_default env st code d :
  float_of_str env "0" = Some PyFloat.zero ->
  http env "https://ipinfo.io/json" = HttpResponse code (Some (VDict d)) ->
  dict_lookup "loc" d = None ->
  fst (get_ip_location env st) = Ret (Some PyFloat.zero, Some PyFloat.zero).
Proof.
  intros Hz Hh Hl.
  unfold get_ip_location, try_except, ip_lookup, requests_get, bind, emit.
  simpl. rewrite Hh. simpl. rewrite Hl. simpl.
  unfold py_float, bind, or_raise. rewrite Hz. reflexivity.
Qed.

(** The outcome of the lookup is decided by the environment alone. *)
Lemma get_ip_location_oblivious env : oblivious (get_ip_location env).
Proof.
  unfold get_ip_location, ip_lookup, requests_get, response_json, dict_get,
    str_split, list_index, py_float.
  repeat oblivious_step.
Qed.

(** ** Notification Composer *)

Lemma newlines_app s1 s2 : newlines (s1 +:+ s2) = (newlines s1 + newlines s2)%nat.
Proof. induction s1 as [| c s1 IH]; simpl; [reflexivity | rewrite IH; lia]. Qed.

(** The body part is never mistaken for a degradation note: a note has two
    line breaks, both in front, and the body part has two in front of
    ["Time of Alert"]. *)
Lemma full_body_not_note env body t k :
  is_note k (PText (full_body env body t)) = false.
Proof.
  assert (Hne : forall note, newlines note = 2%nat ->
            (exists rest, note = nl +:+ nl +:+ String "N" rest) ->
            String.eqb (full_body env body t) note = false).
  { intros note Hn (rest & ->). apply String.eqb_neq. intros H.
    pose proof (f_equal newlines H) as Hc. rewrite Hn in Hc.
    unfold full_body in Hc. rewrite !newlines_app in Hc. simpl in Hc.
    unfold full_body in H. destruct body as [| c body'].
    - simpl in H. discriminate.
    - simpl in H. injection H as Hc' _. subst c. simpl in Hc. lia. }
  unfold is_note. apply orb_false_intro; apply Hne;
    destruct k; try reflexivity; eexists; reflexivity.
Qed.

Lemma exists_nonempty_run path st :
  exists_nonempty path st
  = (Ret (match files st !! path with
          | Some content => 0 <? Z.of_nat (length content)
          | None => false
          end), st).
Proof.
  unfold exists_nonempty, path_exists, path_getsize, bind, ret.
  destruct (files st !! path) as [content |] eqn:E.
  - rewrite bool_decide_eq_true_2 by eauto. rewrite E. reflexivity.
  - rewrite bool_decide_eq_false_2 by (intros [? ?]; discriminate). reflexivity.
Qed.

Lemma read_file_run env path st :
  read_file env path st
  = (match open_rb_error env path with
     | Some e => Raise e
     | None => match files st !! path with
               | Some b => Ret b
               | None => Raise "FileNotFoundError"
               end
     end, st).
Proof.
  unfold read_file. destruct (open_rb_error env path); [reflexivity|].
  destruct (files st !! path); reflexivity.
Qed.

(** The branch of one attachment block of [send_email_alert] (lines 94-109
    and 112-127), once the size check is made. *)
Lemma attach_block_run env k path msg st :
  (if match files st !! path with
      | Some content => 0 <? Z.of_nat (length content)
      | None => false
      end
   then
     try_except
       (bind (read_file env path)
          (fun content =>
             ret (msg_attach (PAttach (subtype_of k) (basename path) content) msg)))
       (fun e => ret (msg_attach (PText (error_note k)) msg))
   else ret (msg_attach (PText (missing_note k)) msg)) st
  = (Ret (msg_attach (representation env st k path) msg), st).
Proof.
  unfold representation.
  destruct (files st !! path) as [content |] eqn:E; [| reflexivity].
  destruct (0 <? Z.of_nat (length content)); [| reflexivity].
  unfold try_except, bind. rewrite read_file_run, E.
  destruct (open_rb_error env path); reflexivity.
Qed.

(** The message-building phase raises when [MIMEText] rejects the body,
    and otherwise returns the body followed by one representation of each
    artifact. *)
Lemma build_message_eq env sender_email recipients subject body audio_file video_file st :
  build_message env sender_email recipients subject body audio_file video_file st
  = (match mime_text_error env (full_body env body (now env (ticks st))) with
     | Some e => Raise e
     | None => Ret (composed env st sender_email recipients subject body
                      audio_file video_file)
     end, tick st).
Proof.
  unfold build_message.
  rewrite (bind_Ret (datetime_now env) _ st (now env (ticks st)) (tick st) eq_refl).
  unfold mime_text. fold (full_body env body (now env (ticks st))).
  destruct (mime_text_error env (full_body env body (now env (ticks st)))) as [e |].
  - reflexivity.
  - unfold bind at 1. unfold ret at 1.
    rewrite (bind_Ret _ _ _ _ _ (exists_nonempty_run audio_file (tick st))).
    rewrite (bind_Ret _ _ _ _ _ (attach_block_run env Audio audio_file _ (tick st))).
    rewrite (bind_Ret _ _ _ _ _ (exists_nonempty_run video_file (tick st))).
    rewrite (attach_block_run env Video video_file _ (tick st)).
    reflexivity.
Qed.

Lemma build_message_run env sender_email recipients subject body audio_file video_file st :
  mime_text_error env (full_body env body (now env (ticks st))) = None ->
  build_message env sender_email recipients subject body audio_file video_file st
  = (Ret (composed env st sender_email recipients subject body audio_file video_file),
     tick st).
Proof. intros H. rewrite build_message_eq, H. reflexivity. Qed.

Lemma build_message_raise env sender_email recipients subject body audio_file video_file
    st e :
  mime_text_error env (full_body env body (now env (ticks st))) = Some e ->
  build_message env sender_email recipients subject body audio_file video_file st
  = (Raise e, tick st).
Proof. intros H. rewrite build_message_eq, H. reflexivity. Qed.

(** A composed message is [composed]. *)
Lemma build_message_inv env sender_email recipients subject body audio_file video_file
    st msg :
  fst (build_message env sender_email recipients subject body audio_file video_file st)
  = Ret msg ->
  mime_text_error env (full_body env body (now env (ticks st))) = None
  /\ msg = composed env st sender_email recipients subject body audio_file video_file.
Proof.
  rewrite build_message_eq.
  destruct (mime_text_error env _); simpl; intros H; [discriminate |].
  injection H as <-. auto.
Qed.

(** Each representation is an attachment or a note of its own kind, and of
    no other kind. *)
Lemma representation_one env st k path :
  (if is_attachment k (representation env st k path) then 1 else 0)
  + (if is_note k (representation env st k path) then 1 else 0) = 1.
Proof.
  unfold representation.
  destruct (files st !! path) as [content |];
    [destruct (0 <? _); [destruct (open_rb_error env path) |] |];
    destruct k; reflexivity.
Qed.

Lemma representation_other env st k k' path :
  k <> k' ->
  is_attachment k' (representation env st k path) = false
  /\ is_note k' (representation env st k path) = false.
Proof.
  intros Hk. unfold representation.
  destruct (files st !! path) as [content |];
    [destruct (0 <? _); [destruct (open_rb_error env path) |] |];
    destruct k, k'; try congruence; split; reflexivity.
Qed.

(** Exactly one representation per artifact kind. *)
Lemma built_message_one_each env st body audio_file video_file sender_email to subject k :
  let msg := {| msg_from := sender_email; msg_to := to; msg_subject := subject;
                msg_parts := [PText (full_body env body (now env (ticks st)));
                              representation env st Audio audio_file;
                              representation env st Video video_file] |} in
  (attachments k msg + notes k msg = 1)%nat.
Proof.
  intros msg. unfold attachments, notes, msg.
  cbn [msg_parts List.filter is_attachment]. rewrite full_body_not_note.
  destruct k.
  - destruct (representation_other env st Video Audio video_file) as [-> ->]; [discriminate|].
    pose proof (representation_one env st Audio audio_file) as H.
    destruct (is_attachment Audio _), (is_note Audio _); simpl in *; lia.
  - destruct (representation_other env st Audio Video audio_file) as [-> ->]; [discriminate|].
    pose proof (representation_one env st Video video_file) as H.
    destruct (is_attachment Video _), (is_note Video _); simpl in *; lia.
Qed.

(** ** Dispatcher *)

Lemma smtp_step_run ev err st :
  smtp_step ev err st
  = (match err with Some e => Raise e | None => Ret tt end, snd (emit ev st)).
Proof. unfold smtp_step, bind, emit. destruct err; reflexivity. Qed.

(** The sending phase, computed: it returns whether nothing raised, having
    attempted the commands up to the point it reached. *)
Lemma smtp_send_eq env sender_email sender_password recipients msg st :
  smtp_send env sender_email sender_password recipients msg st
  = (Ret (smtp_delivered env sender_email sender_password recipients msg),
     logged (take (smtp_reached env sender_email sender_password recipients msg)
               (smtp_commands sender_email sender_password recipients msg)) st).
Proof.
  unfold smtp_send, try_except, bind, smtp_reached, smtp_delivered, smtp_commands, logged.
  rewrite smtp_step_run.
  destruct (smtp_connect env); [reflexivity |]. rewrite smtp_step_run.
  destruct (smtp_starttls env); [simpl; rewrite <- app_assoc; reflexivity |].
  rewrite smtp_step_run.
  destruct (smtp_login env sender_email sender_password);
    [simpl; rewrite <- !app_assoc; reflexivity |].
  unfold msg_as_string.
  destruct (as_string_error env msg); [simpl; rewrite <- !app_assoc; reflexivity |].
  unfold ret at 1. rewrite smtp_step_run.
  destruct (smtp_sendmail env sender_email recipients msg);
    [simpl; rewrite <- !app_assoc; reflexivity |].
  rewrite smtp_step_run.
  destruct (smtp_quit env); simpl; rewrite <- !app_assoc; reflexivity.
Qed.

(** The sending phase never raises. *)
Lemma smtp_send_returns env sender_email sender_password recipients msg st :
  returns (smtp_send env sender_email sender_password recipients msg) st.
Proof. eexists _, _. apply smtp_send_eq. Qed.

(** A failing transport step is reported as [False]. *)
Lemma smtp_failure_not_delivered env sender_email sender_password recipients msg :
  smtp_failure env sender_email sender_password recipients msg ->
  smtp_delivered env sender_email sender_password recipients msg = false.
Proof.
  unfold smtp_delivered.
  intros [e H | e H | e H | e H | e H]; rewrite H; repeat case_match; reflexivity.
Qed.

Lemma smtp_send_failure env sender_email sender_password recipients msg st :
  smtp_failure env sender_email sender_password recipients msg ->
  fst (smtp_send env sender_email sender_password recipients msg st) = Ret false.
Proof.
  intros Hf. rewrite smtp_send_eq. simpl.
  rewrite (smtp_failure_not_delivered _ _ _ _ _ Hf). reflexivity.
Qed.

(** Conversely, [False] is reported only when a transport step failed or
    the message could not be serialised. *)
Lemma not_delivered_inv env sender_email sender_password recipients msg :
  smtp_delivered env sender_email sender_password recipients msg = false ->
  smtp_failure env sender_email sender_password recipients msg
  \/ exists e, as_string_error env msg = Some e.
Proof.
  unfold smtp_delivered.
  destruct (smtp_connect env) eqn:E1; [intros _; left; eapply SfConnect, E1 |].
  destruct (smtp_starttls env) eqn:E2; [intros _; left; eapply SfStartTls, E2 |].
  destruct (smtp_login env sender_email sender_password) eqn:E3;
    [intros _; left; eapply SfLogin, E3 |].
  destruct (as_string_error env msg) eqn:E0; [intros _; right; eauto |].
  destruct (smtp_sendmail env sender_email recipients msg) eqn:E4;
    [intros _; left; eapply SfSendmail, E4 |].
  destruct (smtp_quit env) eqn:E5; [intros _; left; eapply SfQuit, E5 |].
  discriminate.
Qed.

(** [send_email_alert], computed: the error of [MIMEText] leaves it;
    everything after is reported as a boolean. *)
Lemma send_email_alert_eq env sender_email sender_password recipients subject body
    audio_file video_file st :
  send_email_alert env sender_email sender_password recipients subject body
    audio_file video_file st
  = match mime_text_error env (full_body env body (now env (ticks st))) with
    | Some e => (Raise e, tick st)
    | None =>
        smtp_send env sender_email sender_password recipients
          (composed env st sender_email recipients subject body audio_file video_file)
          (tick st)
    end.
Proof.
  unfold send_email_alert, bind. rewrite build_message_eq.
  destruct (mime_text_error env _); reflexivity.
Qed.

Lemma send_email_alert_run env sender_email sender_password recipients subject body
    audio_file video_file st :
  mime_text_error env (full_body env body (now env (ticks st))) = None ->
  send_email_alert env sender_email sender_password recipients subject body
    audio_file video_file st
  = smtp_send env sender_email sender_password recipients
      (composed env st sender_email recipients subject body audio_file video_file)
      (tick st).
Proof. intros H. rewrite send_email_alert_eq, H. reflexivity. Qed.

(** Once the body is accepted, [send_email_alert] returns. *)
Lemma send_email_alert_returns env sender_email sender_password recipients subject body
    audio_file video_file st :
  mime_text_error env (full_body env body (now env (ticks st))) = None ->
  returns (send_email_alert env sender_email sender_password recipients subject body
             audio_file video_file) st.
Proof.
  intros H. unfold returns. rewrite (send_email_alert_run _ _ _ _ _ _ _ _ _ H).
  apply smtp_send_returns.
Qed.

Lemma update_status_run observed status success st :
  update_status (callback_of observed) status success st
  = (Ret tt,
     if observed then snd (emit (EvStatus status success) st) else st).
Proof. destruct observed; reflexivity. Qed.

Lemma update_status_returns observed status success st :
  returns (update_status (callback_of observed) status success) st.
Proof. eexists _, _. apply update_status_run. Qed.

Lemma update_status_ticks observed status success st :
  ticks (snd (update_status (callback_of observed) status success st)) = ticks st.
Proof. rewrite update_status_run. destruct observed; reflexivity. Qed.

(** The stub performs nothing and answers [True]. *)
Lemma send_sms_alert_run message st : send_sms_alert message st = (Ret true, st).
Proof. reflexivity. Qed.

(** What the dispatch step does after the email channel answered. *)
Lemma dispatch_after_email env observed sender_email sender_password email_recipients
    subject body audio_filename video_filename st email_success st_e :
  send_email_alert env sender_email sender_password email_recipients subject body
    audio_filename video_filename
    (snd (update_status (callback_of observed) "Sending email alert..." true st))
  = (Ret email_success, st_e) ->
  exists st',
    dispatch env (callback_of observed) sender_email sender_password email_recipients
      subject body audio_filename video_filename st
    = (Ret (email_success || true), st').
Proof.
  intros He.
  assert (Hs : exists s3,
             (if email_success
              then update_status (callback_of observed) "Email alert sent successfully" true
              else update_status (callback_of observed) "Failed to send email alert" false)
               st_e = (Ret tt, s3)).
  { destruct email_success; eexists; apply update_status_run. }
  destruct Hs as (s3 & H3). eexists.
  unfold dispatch.
  rewrite (bind_Ret _ _ _ _ _ (update_status_run observed _ _ st)).
  rewrite update_status_run in He. simpl snd in He.
  rewrite (bind_Ret _ _ _ _ _ He).
  rewrite (bind_Ret _ _ _ _ _ H3).
  rewrite (bind_Ret _ _ _ _ _ (update_status_run observed _ _ s3)).
  rewrite (bind_Ret _ _ _ _ _ (send_sms_alert_run body _)).
  cbv iota.
  rewrite (bind_Ret _ _ _ _ _ (update_status_run observed _ _ _)).
  rewrite (bind_Ret _ _ _ _ _ (update_status_run observed _ _ _)).
  reflexivity.
Qed.

(** The dispatch step returns the disjunction of the two channel results,
    once the body is accepted. *)
Lemma dispatch_run env observed sender_email sender_password email_recipients subject body
    audio_filename video_filename st :
  mime_text_error env (full_body env body (now env (ticks st))) = None ->
  let cb := callback_of observed in
  let st1 := snd (update_status cb "Sending email alert..." true st) in
  exists email_success sms_success st2 st',
    send_email_alert env sender_email sender_password email_recipients subject body
      audio_filename video_filename st1 = (Ret email_success, st2)
    /\ (forall s, send_sms_alert body s = (Ret sms_success, s))
    /\ dispatch env cb sender_email sender_password email_recipients subject body
         audio_filename video_filename st
       = (Ret (email_success || sms_success), st').
Proof.
  intros Henc cb st1.
  destruct (send_email_alert_returns env sender_email sender_password email_recipients
              subject body audio_filename video_filename st1) as (e & st2 & He).
  { subst st1 cb. rewrite update_status_ticks. exact Henc. }
  destruct (dispatch_after_email _ _ _ _ _ _ _ _ _ _ _ _ He) as (st' & Hd).
  exists e, true, st2, st'. split; [exact He |]. split; [reflexivity | exact Hd].
Qed.

(** A dispatch step that returned had an answer of the email channel. *)
Lemma dispatch_inv env observed sender_email sender_password email_recipients subject body
    audio_filename video_filename st b st' :
  dispatch env (callback_of observed) sender_email sender_password email_recipients
    subject body audio_filename video_filename st = (Ret b, st') ->
  exists email_success st_e,
    send_email_alert env sender_email sender_password email_recipients subject body
      audio_filename video_filename
      (snd (update_status (callback_of observed) "Sending email alert..." true st))
    = (Ret email_success, st_e)
    /\ b = email_success || true.
Proof.
  intros Hd.
  destruct (send_email_alert env sender_email sender_password email_recipients subject body
              audio_filename video_filename
              (snd (update_status (callback_of observed) "Sending email alert..." true st)))
    as [[e | x | ] st_e] eqn:He.
  - exists e, st_e. split; [reflexivity |].
    destruct (dispatch_after_email _ _ _ _ _ _ _ _ _ _ _ _ He) as (st2 & H2).
    rewrite H2 in Hd. congruence.
  - exfalso. unfold dispatch in Hd.
    rewrite (bind_Ret _ _ _ _ _ (update_status_run observed _ _ st)) in Hd.
    rewrite update_status_run in He. simpl snd in He.
    rewrite (bind_Raise _ _ _ _ _ He) in Hd. discriminate.
  - exfalso. unfold dispatch in Hd.
    rewrite (bind_Ret _ _ _ _ _ (update_status_run observed _ _ st)) in Hd.
    rewrite update_status_run in He. simpl snd in He.
    rewrite (bind_Diverge _ _ _ _ He) in Hd. discriminate.
Qed.

(** ** Values returned *)

Lemma bind_inv {A B} (m : M A) (k : A -> M B) st b st' :
  bind m k st = (Ret b, st') ->
  exists a s1, m st = (Ret a, s1) /\ k a s1 = (Ret b, st').
Proof.
  unfold bind. destruct (m st) as [[a | e | ] s1]; intros H; try discriminate.
  eauto.
Qed.

Lemma ret_sat_ret {A} (Q : A -> Prop) a : Q a -> ret_sat Q (ret a).
Proof. intros H st a' st' [= <- _]. exact H. Qed.

Lemma ret_sat_bind {A B} (Q1 : A -> Prop) (Q : B -> Prop) (m : M A) (k : A -> M B) :
  ret_sat Q1 m -> (forall a, Q1 a -> ret_sat Q (k a)) -> ret_sat Q (bind m k).
Proof.
  intros Hm Hk st b st' H. apply bind_inv in H as (a & s1 & H1 & H2).
  exact (Hk a (Hm _ _ _ H1) _ _ _ H2).
Qed.

Lemma ret_sat_bind_any {A B} (Q : B -> Prop) (m : M A) (k : A -> M B) :
  (forall a, ret_sat Q (k a)) -> ret_sat Q (bind m k).
Proof.
  intros Hk. apply (ret_sat_bind (fun _ => True)); [intros ? ? ? ?; exact I | auto].
Qed.

(** Whatever the email channel answers, and whatever the callback does,
    a dispatch step that returns, returns [True]. *)
Lemma dispatch_true env cb sender_email sender_password email_recipients subject body
    audio_filename video_filename :
  ret_sat (fun b => b = true)
    (dispatch env cb sender_email sender_password email_recipients subject body
       audio_filename video_filename).
Proof.
  unfold dispatch.
  apply ret_sat_bind_any; intros _.
  apply ret_sat_bind_any; intros email_success.
  apply ret_sat_bind_any; intros _.
  apply ret_sat_bind_any; intros _.
  apply (ret_sat_bind (fun b => b = true)).
  { intros st a st' [= <- _]. reflexivity. }
  intros sms_success ->.
  apply ret_sat_bind_any; intros _.
  apply ret_sat_bind_any; intros _.
  apply ret_sat_ret. apply orb_true_r.
Qed.

(** ** Alert Session Controller *)

Lemma get_ip_location_effect env st :
  snd (get_ip_location env st) = snd (emit (EvHttpGet "https://ipinfo.io/json") st).
Proof.
  unfold get_ip_location, try_except, ip_lookup, requests_get, response_json,
    dict_get, str_split, list_index, py_float, or_raise, bind, emit, ret, raise.
  repeat (case_match; simpl in *; simplify_eq; try reflexivity).
Qed.

(** The early exit of [send_alert] (lines 158-160): taken when the lookup
    yields an absent coordinate. *)
Lemma send_alert_early env fuel api_key observed st latitude longitude :
  fst (get_ip_location env st) = Ret (latitude, longitude) ->
  latitude = None \/ longitude = None ->
  exists st',
    send_alert env fuel api_key (callback_of observed) st = (Ret false, st')
    /\ files st' = files st
    /\ trace st'
       = trace st
         ++ (if observed
             then [EvStatus "Starting emergency alert process..." true;
                   EvStatus "Detecting location..." true]
             else [])
         ++ [EvHttpGet "https://ipinfo.io/json"]
         ++ (if observed then [EvStatus "Unable to fetch location." false] else []).
Proof.
  intros Hl Hn. unfold send_alert.
  rewrite (bind_Ret _ _ _ _ _ (update_status_run observed _ _ st)).
  rewrite (bind_Ret _ _ _ _ _ (update_status_run observed _ _ _)).
  match goal with |- context [bind (get_ip_location env) _ ?s] => set (s1 := s) end.
  assert (H1 : get_ip_location env s1
               = (Ret (latitude, longitude),
                  snd (emit (EvHttpGet "https://ipinfo.io/json") s1))).
  { rewrite <- (get_ip_location_effect env s1).
    rewrite (get_ip_location_oblivious env st s1) in Hl.
    destruct (get_ip_location env s1); simpl in *; congruence. }
  rewrite (bind_Ret _ _ _ _ _ H1).
  assert (H2 : forall s, bind (update_status (callback_of observed)
                                 "Unable to fetch location." false)
                           (fun _ => ret false) s
                         = (Ret false,
                            if observed
                            then snd (emit (EvStatus "Unable to fetch location." false) s)
                            else s)).
  { intros s. rewrite (bind_Ret _ _ _ _ _ (update_status_run observed _ _ s)). reflexivity. }
  eexists. split.
  - destruct Hn as [-> | ->]; [| destruct latitude]; apply H2.
  - subst s1. destruct observed; simpl; rewrite <- ?app_assoc; auto.
Qed.

(** Conversely, [False] is returned on no other path. *)
Lemma send_alert_false env fuel api_key cb st st' :
  send_alert env fuel api_key cb st = (Ret false, st') ->
  exists latitude longitude,
    fst (get_ip_location env st) = Ret (latitude, longitude)
    /\ (latitude = None \/ longitude = None).
Proof.
  unfold send_alert. intros H.
  apply bind_inv in H as (_ & s1 & _ & H).
  apply bind_inv in H as (_ & s2 & _ & H).
  apply bind_inv in H as ([latitude longitude] & s3 & Hl & H).
  exists latitude, longitude. split.
  { rewrite (get_ip_location_oblivious env st s2), Hl. reflexivity. }
  destruct latitude as [lat |]; [| auto]. destruct longitude as [lon |]; [| auto].
  exfalso. revert H.
  match goal with |- ?m s3 = _ -> _ => assert (Ht : ret_sat (fun b => b = true) m) end.
  { apply ret_sat_bind_any; intros location_address.
    apply ret_sat_bind_any; intros _.
    apply ret_sat_bind_any; intros now_.
    apply ret_sat_bind_any; intros audio_recorded.
    apply ret_sat_bind_any; intros video_recorded.
    apply dispatch_true. }
  intros H. apply Ht in H. discriminate.
Qed.

(** ** Events of a session *)

Section Emits.
Variable P : event -> Prop.
Hypothesis P_status : forall status success, P (EvStatus status success).
Hypothesis P_http : forall url, P (EvHttpGet url).

Lemma emits_update_status observed status success :
  emits P (update_status (callback_of observed) status success).
Proof.
  destruct observed; simpl; [apply emits_emit, P_status | apply emits_ret].
Qed.

Lemma emits_requests_get env url : emits P (requests_get env url).
Proof.
  unfold requests_get. apply emits_bind; [apply emits_emit, P_http | intros _].
  destruct (http env url); auto with emits.
Qed.

#[local] Hint Resolve emits_update_status emits_requests_get : emits.

Lemma emits_get_ip_location env : emits P (get_ip_location env).
Proof.
  unfold get_ip_location, ip_lookup, response_json, dict_get, str_split,
    list_index, py_float.
  repeat emits_step.
Qed.

Lemma emits_reverse_geocode env api_key latitude longitude :
  emits P (reverse_geocode env api_key latitude longitude).
Proof.
  unfold reverse_geocode, geocode_query, response_json, dict_get,
    subscript_key, subscript_0.
  repeat emits_step.
Qed.

Lemma emits_record_audio env observed audio_filename :
  emits P (record_audio env (callback_of observed) audio_filename).
Proof.
  unfold record_audio, soundfile_write. repeat emits_step.
Qed.

Lemma emits_video_loop env fuel video_filename start_time written :
  emits P (video_loop env fuel video_filename start_time written).
Proof.
  revert written. induction fuel as [| fuel IH]; intros written; simpl.
  - apply emits_nothing. reflexivity.
  - repeat emits_step.
Qed.

#[local] Hint Resolve emits_video_loop : emits.

Lemma emits_capture_video env fuel observed video_filename :
  emits P (capture_video env fuel (callback_of observed) video_filename).
Proof.
  unfold capture_video. repeat emits_step.
Qed.

Lemma emits_build_message env sender_email recipients subject body audio_file video_file :
  emits P (build_message env sender_email recipients subject body audio_file video_file).
Proof.
  unfold build_message, mime_text, exists_nonempty. repeat emits_step.
Qed.
End Emits.

(** The only login a dispatch attempts uses the password it is given. *)
Lemma emits_smtp_send env sender_email sender_password recipients msg :
  emits (login_with sender_password)
    (smtp_send env sender_email sender_password recipients msg).
Proof.
  unfold smtp_send, smtp_step, msg_as_string.
  repeat first [ emits_step | apply emits_emit; simpl; auto ].
Qed.

Lemma emits_dispatch env observed sender_email sender_password email_recipients subject
    body audio_filename video_filename :
  emits (login_with sender_password)
    (dispatch env (callback_of observed) sender_email sender_password email_recipients
       subject body audio_filename video_filename).
Proof.
  assert (Hs : forall status success, login_with sender_password (EvStatus status success))
    by (intros; exact I).
  assert (Hh : forall url, login_with sender_password (EvHttpGet url))
    by (intros; exact I).
  unfold dispatch, send_email_alert, send_sms_alert.
  repeat first [ emits_step
               | apply emits_update_status; assumption
               | apply emits_build_message; assumption
               | apply emits_smtp_send ].
Qed.

(** Every login of a session uses the value of [EMAIL_PASSWORD], or the
    embedded default when the variable is not set. *)
Lemma emits_send_alert env fuel api_key observed :
  emits (login_with (environ_get env "EMAIL_PASSWORD" default_password))
    (send_alert env fuel api_key (callback_of observed)).
Proof.
  set (pw := environ_get env "EMAIL_PASSWORD" default_password).
  assert (Hs : forall status success, login_with pw (EvStatus status success))
    by (intros; exact I).
  assert (Hh : forall url, login_with pw (EvHttpGet url))
    by (intros; exact I).
  unfold send_alert.
  repeat first [ emits_step
               | apply emits_update_status; assumption
               | apply emits_get_ip_location; assumption
               | apply emits_reverse_geocode; assumption
               | apply emits_record_audio; assumption
               | apply emits_capture_video; assumption
               | apply emits_dispatch ].
Qed.

(** A session that found coordinates and returned, returned what its
    dispatch step returned. *)
Lemma send_alert_reaches_dispatch env fuel api_key cb st b lat lon :
  fst (send_alert env fuel api_key cb st) = Ret b ->
  fst (get_ip_location env st) = Ret (Some lat, Some lon) ->
  exists sender_email sender_password email_recipients subject body
         audio_filename video_filename st_d,
    dispatch env cb sender_email sender_password email_recipients subject body
      audio_filename video_filename st_d
    = (Ret b, snd (send_alert env fuel api_key cb st))
    /\ sender_password = environ_get env "EMAIL_PASSWORD" default_password.
Proof.
  intros Hb Hl.
  destruct (send_alert env fuel api_key cb st) as [r st'] eqn:H.
  simpl in Hb. subst r. simpl snd. unfold send_alert in H.
  apply bind_inv in H as (_ & s1 & _ & H).
  apply bind_inv in H as (_ & s2 & _ & H).
  apply bind_inv in H as ([latitude longitude] & s3 & Hl' & H).
  rewrite (get_ip_location_oblivious env st s2), Hl' in Hl.
  injection Hl as -> ->.
  apply bind_inv in H as (location_address & s4 & _ & H).
  apply bind_inv in H as (_ & s5 & _ & H).
  apply bind_inv in H as (now_ & s6 & _ & H).
  apply bind_inv in H as (audio_recorded & s7 & _ & H).
  apply bind_inv in H as (video_recorded & s8 & _ & H).
  do 8 eexists. split; [exact H | reflexivity].
Qed.

(** ** The frame loop ends

    If, within the fuel, some reading of the clock shows ten seconds or
    more elapsed, the loop does not run out of fuel: it ends on that
    reading or before it (on a failed read or an exception). *)
Lemma video_loop_ends env fuel video_filename start_time written st n :
  (n < fuel)%nat ->
  10 <= timedelta_seconds (now env (ticks st + n) - start_time) ->
  fst (video_loop env fuel video_filename start_time written st) <> Diverge.
Proof.
  revert fuel written st.
  induction n as [| n IH]; intros fuel written st Hf Ht;
    (destruct fuel as [| fuel]; [lia |]); simpl video_loop;
    unfold bind at 1, datetime_now.
  - rewrite Nat.add_0_r in Ht. apply Z.ltb_ge in Ht. rewrite Ht. discriminate.
  - destruct (timedelta_seconds (now env (ticks st) - start_time) <? 10);
      [| discriminate].
    unfold bind at 1, cap_read_next. simpl reads.
    destruct (cap_read env (reads st)); try discriminate.
    unfold bind at 1, set_file.
    apply IH; [lia |]. simpl ticks.
    replace (S (ticks st) + n)%nat with (ticks st + S n)%nat by lia. exact Ht.
Qed.

(** * The claims *)

(** ** Location Resolver *)

(** C1, as the code has it: for every API key and every coordinate pair,
    present or absent, [reverse_geocode] returns (it neither raises nor
    diverges); whenever the credential is missing, a coordinate is missing,
    the response is not a 200, the result list is missing or empty, or any
    exception occurs in the query, the label is the non-empty string
    ["Coordinates: {lat}, {lon}"]; on a 200 response with a result, the
    label is the value the first result's address carries under ['label'],
    passed on unchecked. *)
Theorem reverse_geocode_total_with_fallback env api_key latitude longitude st :
  returns (reverse_geocode env api_key latitude longitude) st
  /\ (fallback_case env api_key latitude longitude st ->
      fst (reverse_geocode env api_key latitude longitude st)
      = Ret (VStr (coordinates_label env latitude longitude))
      /\ coordinates_label env latitude longitude <> "")
  /\ (forall d first rest addr,
        geocode_guard api_key latitude longitude = false ->
        http env (geocode_url env (py_str env (key_val api_key)) latitude longitude)
          = HttpResponse 200 (Some (VDict d)) ->
        dict_lookup "items" d = Some (VList (VDict first :: rest)) ->
        dict_lookup "address" first = Some (VDict addr) ->
        fst (reverse_geocode env api_key latitude longitude st)
        = Ret (match dict_lookup "label" addr with
               | Some label => label
               | None => VStr (coordinates_label env latitude longitude)
               end)).
Proof.
  split; [apply reverse_geocode_returns |]. split.
  - intros Hc. split; [apply reverse_geocode_fallback, Hc |].
    apply coordinates_label_nonempty.
  - intros d first rest addr. apply reverse_geocode_provider_label.
Qed.

(** With no geocoding key and the coordinates (12.9, 77.6), the label is
    ["Coordinates: 12.9, 77.6"]. *)
Lemma reverse_geocode_total_with_fallback_witness :
  fst (reverse_geocode Scenario.working None
         (Some Scenario.lat_12_9) (Some Scenario.lon_77_6) Scenario.st0)
  = Ret (VStr "Coordinates: 12.9, 77.6").
Proof.
  apply (proj1 (proj2 (reverse_geocode_total_with_fallback Scenario.working None
                         (Some Scenario.lat_12_9) (Some Scenario.lon_77_6) Scenario.st0))).
  apply FbNoCredential. left. reflexivity.
Defined.

(** C1 fails as stated: with a key, the coordinates (12.9, 77.6) and a
    geocoder whose first result has the label [""], the label returned is
    the empty string. *)
Lemma reverse_geocode_empty_label :
  fst (reverse_geocode Scenario.empty_label (Some "KEY")
         (Some Scenario.lat_12_9) (Some Scenario.lon_77_6) Scenario.st0)
  = Ret (VStr "").
Proof. vm_compute. reflexivity. Qed.

(** C10: with a configured API key, a latitude or longitude equal to 0.0
    is taken for an absent one: [reverse_geocode] returns the label
    ["Coordinates: {lat}, {lon}"] and leaves the state as it was, so that no
    request is sent. *)
Theorem reverse_geocode_zero_coordinate env (key : string) latitude longitude zero st :
  truthy (VStr key) = true ->
  PyFloat.is_zero zero = true ->
  latitude = Some zero \/ longitude = Some zero ->
  reverse_geocode env (Some key) latitude longitude st
  = (Ret (VStr (coordinates_label env latitude longitude)), st).
Proof.
  intros _ Hz Hc. apply reverse_geocode_guarded. unfold geocode_guard.
  destruct Hc as [-> | ->]; rewrite (truthy_coord_zero _ Hz); simpl;
    rewrite ?orb_true_r; reflexivity.
Qed.

Lemma reverse_geocode_zero_coordinate_witness :
  reverse_geocode Scenario.working (Some "KEY")
    (Some PyFloat.zero) (Some Scenario.lon_77_6) Scenario.st0
  = (Ret (VStr "Coordinates: 0.0, 77.6"), Scenario.st0).
Proof.
  apply (reverse_geocode_zero_coordinate Scenario.working "KEY"
           (Some PyFloat.zero) (Some Scenario.lon_77_6) PyFloat.zero Scenario.st0).
  - reflexivity.
  - reflexivity.
  - left. reflexivity.
Defined.

(** C5, as the code has it: [get_ip_location] always returns; when the
    lookup errs by a network failure or a malformed response (a body that
    is not JSON, not an object, or whose ['loc'] is not a string whose
    first two comma-separated fields [float()] accepts), or by any
    exception in its [try] block, both coordinates are [None]; when the
    response is an object without the ['loc'] field, the default ['0,0'] is
    parsed and, [float('0')] being [0.0], the pair (0.0, 0.0) is
    returned. *)
Theorem get_ip_location_absent_or_default env st :
  returns (get_ip_location env) st
  /\ (lookup_error env -> fst (get_ip_location env st) = Ret (None, None))
  /\ (forall e st', ip_lookup env st = (Raise e, st') ->
        get_ip_location env st = (Ret (None, None), st'))
  /\ (forall code d,
        float_of_str env "0" = Some PyFloat.zero ->
        http env "https://ipinfo.io/json" = HttpResponse code (Some (VDict d)) ->
        dict_lookup "loc" d = None ->
        fst (get_ip_location env st) = Ret (Some PyFloat.zero, Some PyFloat.zero)).
Proof.
  split; [apply get_ip_location_returns |].
  split; [apply get_ip_location_error |].
  split; [apply get_ip_location_raise |].
  intros code d. apply get_ip_location_default.
Qed.

Lemma get_ip_location_absent_or_default_witness :
  fst (get_ip_location Scenario.no_network Scenario.st0) = Ret (None, None).
Proof.
  apply (proj1 (proj2 (get_ip_location_absent_or_default Scenario.no_network Scenario.st0))).
  apply (LeNetwork _ "ConnectionError"). reflexivity.
Defined.

(** C5 fails as stated: a response without the location field yields the
    pair (0.0, 0.0), not absent coordinates. *)
Lemma get_ip_location_zero_pair :
  fst (get_ip_location Scenario.no_loc_field Scenario.st0)
  = Ret (Some (S754_zero false), Some (S754_zero false)).
Proof. vm_compute. reflexivity. Qed.

(** ** Notification Composer *)

(** C3, as the code has it: once [MIMEText] has accepted the body, the
    message-building phase of [send_email_alert] returns for every state of
    the two artifact files and every read outcome; the message is the body
    followed by the representation of the audio file and that of the video
    file, each decided by its own file alone (so that a read error on one
    leaves the other as it is); and for each kind the message holds one
    attachment or one note, never both and never neither.  When [MIMEText]
    cannot encode the body (line 91, outside every [try]), the phase raises
    that error. *)
Theorem build_message_total_once_body_encoded env sender_email recipients subject body
    audio_file video_file st :
  (mime_text_error env (full_body env body (now env (ticks st))) = None ->
   exists msg st',
     build_message env sender_email recipients subject body audio_file video_file st
     = (Ret msg, st')
     /\ msg_parts msg
        = [PText (full_body env body (now env (ticks st)));
           representation env st Audio audio_file;
           representation env st Video video_file]
     /\ forall k, (attachments k msg + notes k msg = 1)%nat)
  /\ (forall e,
        mime_text_error env (full_body env body (now env (ticks st))) = Some e ->
        fst (build_message env sender_email recipients subject body
               audio_file video_file st) = Raise e).
Proof.
  split.
  - intros Hb. eexists _, _. split; [apply build_message_run, Hb |].
    split; [reflexivity |]. intros k. apply built_message_one_each.
  - intros e He. rewrite (build_message_raise _ _ _ _ _ _ _ _ _ He). reflexivity.
Qed.

(** With neither artifact on disk the message is the body and the two
    "device limitations" notes. *)
Lemma build_message_total_once_body_encoded_witness :
  exists msg st',
    build_message Scenario.working default_sender [default_sender] "Emergency Alert!"
      "Help needed!" "a.wav" "v.avi" Scenario.st0
    = (Ret msg, st')
    /\ msg_parts msg
       = [PText (full_body Scenario.working "Help needed!"
                   (now Scenario.working (ticks Scenario.st0)));
          representation Scenario.working Scenario.st0 Audio "a.wav";
          representation Scenario.working Scenario.st0 Video "v.avi"]
    /\ forall k, (attachments k msg + notes k msg = 1)%nat.
Proof.
  apply (proj1 (build_message_total_once_body_encoded Scenario.working default_sender
                  [default_sender] "Emergency Alert!" "Help needed!" "a.wav" "v.avi"
                  Scenario.st0)).
  reflexivity.
Defined.

(** C3 fails as stated: a body that holds a lone surrogate (here the label
    the geocoder answered with) is refused by [MIMEText]; composition
    raises, and so does the session. *)
Lemma build_message_unencodable_body :
  let err : exn :=
    "UnicodeEncodeError: 'utf-8' codec can't encode character: surrogates not allowed" in
  fst (build_message Edge.unencodable_label default_sender [default_sender]
         "Emergency Alert!"
         (alert_body Edge.unencodable_label (VStr Edge.lone_surrogate)
            Scenario.lat_12_9 Scenario.lon_77_6)
         "alert_audio_1700000000.wav" "alert_video_1700000000.avi" Scenario.st0)
  = Raise err
  /\ fst (send_alert Edge.unencodable_label 5 (Some "KEY") (callback_of true)
            Scenario.st0)
     = Raise err.
Proof. vm_compute. split; reflexivity. Qed.

(** C2 fails on the code: with no microphone and a working camera the
    session announces that it sends the email without audio attachment,
    writes the placeholder, and then mails the placeholder's bytes as a
    [wav] attachment, next to the genuine video, with no audio note. *)
Theorem placeholder_audio_attached :
  let run := send_alert Scenario.no_microphone 5 (Some "KEY") (callback_of true)
               Scenario.st0 in
  fst run = Ret true
  /\ In (EvStatus ("Could not record audio: Error querying device -1."
                   +:+ " Sending email without audio attachment.") false)
        (trace (snd run))
  /\ exists body_part msg,
       In (EvSmtpSendmail default_sender [default_sender] msg) (trace (snd run))
       /\ msg_parts msg
          = [body_part;
             PAttach "wav" "alert_audio_1700000000.wav" placeholder_audio;
             PAttach "avi" "alert_video_1700000000.avi"
               (list_byte_of_string "AVI frameframe")]
       /\ attachments Audio msg = 1%nat
       /\ notes Audio msg = 0%nat.
Proof.
  vm_compute. split; [reflexivity |]. split.
  - do 6 right. left. reflexivity.
  - eexists _, _. split; [do 13 right; left; reflexivity |].
    repeat split.
Qed.

(** ** Evidence Capturer *)

(** C6 fails on the code: the camera opens, the first read fails, and the
    writer has produced no file; the video step reports success, writes no
    placeholder, and leaves no file under the artifact's name. *)
Theorem zero_frames_no_placeholder :
  let run := capture_video Scenario.dead_camera 5 (callback_of true)
               "alert_video_1700000000.avi" Scenario.st0 in
  fst run = Ret true
  /\ trace (snd run) = [EvStatus "Recording video..." true;
                        EvStatus "Video recorded successfully" true]
  /\ files (snd run) !! "alert_video_1700000000.avi" = None.
Proof. vm_compute. repeat split. Qed.

(** ** Dispatcher *)

(** C8: for a body that [MIMEText] accepts, [send_email_alert] returns;
    when a step of the mail transport fails (connection, TLS,
    authentication, relay rejection, closing) it returns [False]; and the
    dispatch step around it goes on and returns [True]. *)
Theorem send_email_alert_failure_caught env observed sender_email sender_password
    recipients subject body audio_file video_file st :
  mime_text_error env (full_body env body (now env (ticks st))) = None ->
  returns (send_email_alert env sender_email sender_password recipients subject body
             audio_file video_file) st
  /\ (forall msg,
        fst (build_message env sender_email recipients subject body
               audio_file video_file st) = Ret msg ->
        smtp_failure env sender_email sender_password recipients msg ->
        fst (send_email_alert env sender_email sender_password recipients subject body
               audio_file video_file st) = Ret false)
  /\ fst (dispatch env (callback_of observed) sender_email sender_password recipients
            subject body audio_file video_file st) = Ret true.
Proof.
  intros Hb. split; [apply send_email_alert_returns, Hb |]. split.
  - intros msg Hm Hf. rewrite (build_message_run _ _ _ _ _ _ _ _ Hb) in Hm.
    injection Hm as <-.
    rewrite (send_email_alert_run _ _ _ _ _ _ _ _ _ Hb). apply smtp_send_failure, Hf.
  - destruct (dispatch_run env observed sender_email sender_password recipients
                subject body audio_file video_file st Hb)
      as (e & s & st2 & st' & _ & Hs & Hd).
    rewrite Hd. simpl. specialize (Hs st). injection Hs as <-.
    rewrite orb_true_r. reflexivity.
Qed.

Lemma send_email_alert_failure_caught_witness :
  fst (send_email_alert Scenario.bad_credential default_sender default_password
         [default_sender] "Emergency Alert!" "Help needed!" "a.wav" "v.avi" Scenario.st0)
  = Ret false.
Proof.
  eapply (proj1 (proj2 (send_email_alert_failure_caught Scenario.bad_credential true
                          default_sender default_password [default_sender]
                          "Emergency Alert!" "Help needed!" "a.wav" "v.avi" Scenario.st0
                          eq_refl))).
  - reflexivity.
  - eapply SfLogin. reflexivity.
Defined.

(** C4: a session that found coordinates and returned, returned the
    result of its dispatch step, which is the disjunction of the result of
    [send_email_alert] and of the result of [send_sms_alert]; the stub
    answers [True] and leaves the state, hence the trace, as it was; so the
    session returns [True] whatever the email channel answered. *)
Theorem send_alert_result_is_or env fuel api_key observed st b lat lon :
  fst (send_alert env fuel api_key (callback_of observed) st) = Ret b ->
  fst (get_ip_location env st) = Ret (Some lat, Some lon) ->
  exists sender_email sender_password email_recipients subject body
         audio_filename video_filename st_d email_success sms_success st_e,
    dispatch env (callback_of observed) sender_email sender_password email_recipients
      subject body audio_filename video_filename st_d
    = (Ret b, snd (send_alert env fuel api_key (callback_of observed) st))
    /\ send_email_alert env sender_email sender_password email_recipients subject body
         audio_filename video_filename
         (snd (update_status (callback_of observed) "Sending email alert..." true st_d))
       = (Ret email_success, st_e)
    /\ (forall s, send_sms_alert body s = (Ret sms_success, s))
    /\ sms_success = true
    /\ b = email_success || sms_success
    /\ b = true.
Proof.
  intros Hb Hl.
  destruct (send_alert_reaches_dispatch _ _ _ _ _ _ _ _ Hb Hl)
    as (se & pw & rc & su & bo & af & vf & st_d & Hd & _).
  destruct (dispatch_inv _ _ _ _ _ _ _ _ _ _ _ _ Hd) as (e & st_e & He & ->).
  exists se, pw, rc, su, bo, af, vf, st_d, e, true, st_e.
  repeat split; auto. apply orb_true_r.
Qed.

Lemma send_alert_result_is_or_witness :
  let env := Scenario.bad_credential in
  exists sender_email sender_password email_recipients subject body
         audio_filename video_filename st_d email_success sms_success st_e,
    dispatch env (callback_of true) sender_email sender_password email_recipients
      subject body audio_filename video_filename st_d
    = (Ret true, snd (send_alert env 5 (Some "KEY") (callback_of true) Scenario.st0))
    /\ send_email_alert env sender_email sender_password email_recipients subject body
         audio_filename video_filename
         (snd (update_status (callback_of true) "Sending email alert..." true st_d))
       = (Ret email_success, st_e)
    /\ (forall s, send_sms_alert body s = (Ret sms_success, s))
    /\ sms_success = true
    /\ true = email_success || sms_success
    /\ true = true.
Proof.
  apply (send_alert_result_is_or Scenario.bad_credential 5 (Some "KEY") true Scenario.st0
           true Scenario.lat_12_9 Scenario.lon_77_6).
  - vm_compute. reflexivity.
  - vm_compute. reflexivity.
Defined.

(** ** Alert Session Controller *)

(** C7, as the code has it: the session ends early exactly when the IP
    lookup yields an absent latitude or longitude.  Then [send_alert]
    reports ["Unable to fetch location."] with [success = False] and returns
    [False], having sent the lookup request only and touched no file; it
    returns [False] on no other path; and the path is live, since every
    lookup error leads to it. *)
Theorem send_alert_early_exit env fuel api_key observed st :
  (forall latitude longitude,
     fst (get_ip_location env st) = Ret (latitude, longitude) ->
     latitude = None \/ longitude = None ->
     exists st',
       send_alert env fuel api_key (callback_of observed) st = (Ret false, st')
       /\ files st' = files st
       /\ trace st'
          = trace st
            ++ (if observed
                then [EvStatus "Starting emergency alert process..." true;
                      EvStatus "Detecting location..." true]
                else [])
            ++ [EvHttpGet "https://ipinfo.io/json"]
            ++ (if observed then [EvStatus "Unable to fetch location." false] else []))
  /\ (forall st',
        send_alert env fuel api_key (callback_of observed) st = (Ret false, st') ->
        exists latitude longitude,
          fst (get_ip_location env st) = Ret (latitude, longitude)
          /\ (latitude = None \/ longitude = None))
  /\ (lookup_error env ->
      fst (send_alert env fuel api_key (callback_of observed) st) = Ret false).
Proof.
  split; [| split].
  - intros latitude longitude. apply send_alert_early.
  - intros st'. apply send_alert_false.
  - intros He.
    destruct (send_alert_early env fuel api_key observed st None None)
      as (st' & H & _); [apply get_ip_location_error, He | auto |].
    rewrite H. reflexivity.
Qed.

Lemma send_alert_early_exit_witness :
  fst (send_alert Scenario.no_network 5 (Some "KEY") (callback_of true) Scenario.st0)
  = Ret false.
Proof.
  apply (proj2 (proj2 (send_alert_early_exit Scenario.no_network 5 (Some "KEY") true
                         Scenario.st0))).
  apply (LeNetwork _ "ConnectionError"). reflexivity.
Defined.

(** C7 fails as stated: without network the session takes the early exit;
    the path is reachable although no step raised. *)
Lemma send_alert_location_failure_reachable :
  let run := send_alert Scenario.no_network 5 (Some "KEY") (callback_of true)
               Scenario.st0 in
  fst run = Ret false
  /\ trace (snd run)
     = [EvStatus "Starting emergency alert process..." true;
        EvStatus "Detecting location..." true;
        EvHttpGet "https://ipinfo.io/json";
        EvStatus "Unable to fetch location." false].
Proof. vm_compute. split; reflexivity. Qed.

(** C9, as the code has it: when [EMAIL_PASSWORD] is not set, every SMTP
    login of the session uses the embedded default password; with that
    password, once the message is composed the email channel returns, and
    it reports [False] only when a step of the mail transport failed or
    [msg.as_string()] raised; and a session that found coordinates and
    returned, returned [True]. *)
Theorem missing_credential_uses_default env fuel api_key observed st :
  environ env !! "EMAIL_PASSWORD" = None ->
  (exists evs,
     trace (snd (send_alert env fuel api_key (callback_of observed) st)) = trace st ++ evs
     /\ Forall (login_with default_password) evs)
  /\ (forall sender_email recipients subject body audio_file video_file st1 msg,
        fst (build_message env sender_email recipients subject body
               audio_file video_file st1) = Ret msg ->
        returns (send_email_alert env sender_email default_password recipients subject
                   body audio_file video_file) st1
        /\ (fst (send_email_alert env sender_email default_password recipients subject
                   body audio_file video_file st1) = Ret false ->
            smtp_failure env sender_email default_password recipients msg
            \/ exists e, as_string_error env msg = Some e))
  /\ (forall b lat lon,
        fst (send_alert env fuel api_key (callback_of observed) st) = Ret b ->
        fst (get_ip_location env st) = Ret (Some lat, Some lon) ->
        b = true).
Proof.
  intros Hp. split; [| split].
  - pose proof (emits_send_alert env fuel api_key observed st) as H.
    unfold environ_get in H. rewrite Hp in H. exact H.
  - intros se rc su bo af vf st1 msg Hm.
    destruct (build_message_inv _ _ _ _ _ _ _ _ _ Hm) as (Hb & ->).
    split; [apply send_email_alert_returns, Hb |].
    rewrite (send_email_alert_run _ _ _ _ _ _ _ _ _ Hb), smtp_send_eq. simpl.
    intros H. apply not_delivered_inv. congruence.
  - intros b lat lon Hb Hl.
    destruct (send_alert_reaches_dispatch _ _ _ _ _ _ _ _ Hb Hl)
      as (se & pw & rc & su & bo & af & vf & st_d & Hd & _).
    exact (dispatch_true _ _ _ _ _ _ _ _ _ _ _ _ Hd).
Qed.

Lemma missing_credential_uses_default_witness :
  exists evs,
    trace (snd (send_alert Scenario.bad_credential 5 (Some "KEY") (callback_of true)
                  Scenario.st0))
    = trace Scenario.st0 ++ evs
    /\ Forall (login_with default_password) evs.
Proof.
  apply (missing_credential_uses_default Scenario.bad_credential 5 (Some "KEY") true
           Scenario.st0).
  reflexivity.
Defined.

(** C9 fails as stated: with no [EMAIL_PASSWORD] in the environment and a
    relay that accepts the login, the session logs in with the embedded
    password and the email channel reports success. *)
Lemma default_secret_substituted :
  let run := send_alert Scenario.working 5 (Some "KEY") (callback_of true)
               Scenario.st0 in
  environ Scenario.working !! "EMAIL_PASSWORD" = None
  /\ In (EvSmtpLogin "gokuad021@rmkcet.ac.in" "sugs hwmo fkxc sazi") (trace (snd run))
  /\ In (EvStatus "Email alert sent successfully" true) (trace (snd run)).
Proof.
  split; [reflexivity |]. vm_compute. split.
  - do 12 right. left. reflexivity.
  - do 15 right. left. reflexivity.
Qed.

(** * Further properties of the code *)

(** ** Location Resolver *)

Lemma ip_lookup_pair env :
  ret_sat (fun r => exists x y, r = (Some x, Some y)) (ip_lookup env).
Proof.
  unfold ip_lookup.
  apply ret_sat_bind_any; intros [code body].
  apply ret_sat_bind_any; intros data.
  apply ret_sat_bind_any; intros v.
  apply ret_sat_bind_any; intros loc.
  apply ret_sat_bind_any; intros s0.
  apply ret_sat_bind_any; intros latitude.
  apply ret_sat_bind_any; intros s1.
  apply ret_sat_bind_any; intros longitude.
  apply ret_sat_ret. eauto.
Qed.

(** X1: [get_ip_location] passes the first two comma-separated fields of
    ['loc'] to [float()] and returns the two floats it yields, whatever the
    status code of the response and whatever follows the second field. *)
Theorem get_ip_location_parses_loc env st code d s s0 s1 rest x y :
  http env "https://ipinfo.io/json" = HttpResponse code (Some (VDict d)) ->
  dict_lookup "loc" d = Some (VStr s) ->
  split_on "," s = s0 :: s1 :: rest ->
  float_of_str env s0 = Some x ->
  float_of_str env s1 = Some y ->
  fst (get_ip_location env st) = Ret (Some x, Some y).
Proof.
  intros Hh Hl Hs Hx Hy.
  unfold get_ip_location, try_except, ip_lookup, requests_get, bind, emit.
  simpl. rewrite Hh. simpl. rewrite Hl. simpl.
  unfold list_index, py_float, bind, or_raise. rewrite Hs. simpl.
  rewrite Hx, Hy. reflexivity.
Qed.

Lemma get_ip_location_parses_loc_witness :
  fst (get_ip_location Edge.error_status_with_loc Scenario.st0)
  = Ret (Some Scenario.lat_12_9, Some Scenario.lon_77_6).
Proof.
  apply (get_ip_location_parses_loc Edge.error_status_with_loc Scenario.st0 503
           [("ip", VStr "203.0.113.7"); ("country", VStr "IN");
            ("loc", VStr "12.9,77.6,910")]
           "12.9,77.6,910" "12.9" "77.6" ["910"]);
    vm_compute; reflexivity.
Defined.

(** X2: the two coordinates [get_ip_location] returns are both floats or
    both [None]; a latitude without a longitude does not occur. *)
Theorem get_ip_location_both_or_neither env st :
  exists r, fst (get_ip_location env st) = Ret r
    /\ (r = (None, None) \/ exists x y, r = (Some x, Some y)).
Proof.
  unfold get_ip_location, try_except.
  pose proof (ip_lookup_pair env st) as Hp.
  pose proof (ip_lookup_not_Diverge env st) as Hd.
  destruct (ip_lookup env st) as [[r | e | ] st']; simpl in *.
  - exists r. split; [reflexivity | right; eapply Hp; reflexivity].
  - exists (None, None). auto.
  - congruence.
Qed.

(** X3: whatever the outcome, [get_ip_location] sends one request, to
    [https://ipinfo.io/json], and changes nothing else: no file, no
    clock reading, no camera read. *)
Theorem get_ip_location_one_request env st :
  trace (snd (get_ip_location env st))
  = trace st ++ [EvHttpGet "https://ipinfo.io/json"]
  /\ files (snd (get_ip_location env st)) = files st
  /\ ticks (snd (get_ip_location env st)) = ticks st
  /\ reads (snd (get_ip_location env st)) = reads st.
Proof. rewrite get_ip_location_effect. repeat split. Qed.

Lemma geocode_query_effect env api_key latitude longitude st :
  snd (try_except (geocode_query env api_key latitude longitude)
         (fun _ => ret (VStr (coordinates_label env latitude longitude))) st)
  = snd (emit (EvHttpGet (geocode_url env (py_str env (key_val api_key))
                            latitude longitude)) st).
Proof.
  unfold try_except, geocode_query, requests_get, response_json, dict_get,
    subscript_key, subscript_0, or_raise, bind, emit, ret, raise.
  simpl. repeat (case_match; simpl in *; simplify_eq; try reflexivity).
Qed.

(** X4: [reverse_geocode] sends no request when the key is missing or
    empty or a coordinate is missing or zero, and otherwise one request, to
    the reverse-geocoding URL built from the coordinates and the key; it
    changes nothing else, whatever the answer. *)
Theorem reverse_geocode_requests env api_key latitude longitude st :
  snd (reverse_geocode env api_key latitude longitude st)
  = if geocode_guard api_key latitude longitude
    then st
    else {| files := files st;
            trace := trace st
                     ++ [EvHttpGet
                           ("https://geocode.reverse.hereapi.com/v1/reverse?at="
                            +:+ py_str env (coord_val latitude) +:+ ","
                            +:+ py_str env (coord_val longitude)
                            +:+ "&apiKey=" +:+ py_str env (key_val api_key))];
            ticks := ticks st; reads := reads st |}.
Proof.
  destruct (geocode_guard api_key latitude longitude) eqn:G.
  - rewrite reverse_geocode_guarded by exact G. reflexivity.
  - rewrite reverse_geocode_queried by exact G. rewrite geocode_query_effect.
    reflexivity.
Qed.

(** ** Dispatcher *)

Lemma smtp_reached_bounds env sender_email sender_password recipients msg :
  (1 <= smtp_reached env sender_email sender_password recipients msg <= 5)%nat.
Proof. unfold smtp_reached. repeat case_match; lia. Qed.

(** The message is handed over exactly when connect, STARTTLS and login
    went through and the message could be serialised. *)
Lemma smtp_reached_sendmail env sender_email sender_password recipients msg :
  (4 <= smtp_reached env sender_email sender_password recipients msg)%nat
  <-> smtp_connect env = None /\ smtp_starttls env = None
      /\ smtp_login env sender_email sender_password = None
      /\ as_string_error env msg = None.
Proof.
  unfold smtp_reached. split.
  - repeat case_match; intros; try lia; auto.
  - intros (-> & -> & -> & ->). case_match; lia.
Qed.

Lemma smtp_delivered_iff env sender_email sender_password recipients msg :
  smtp_delivered env sender_email sender_password recipients msg = true
  <-> smtp_reached env sender_email sender_password recipients msg = 5%nat
      /\ smtp_quit env = None.
Proof.
  unfold smtp_delivered, smtp_reached. split.
  - repeat case_match; intros; try discriminate; auto.
  - intros (H & ->). repeat case_match; try discriminate; reflexivity.
Qed.

(** X5: for a body that [MIMEText] accepts, the SMTP events of
    [send_email_alert] are a non-empty prefix of connect, STARTTLS, login,
    sendmail, quit, in this order; the prefix ends with the first command
    that raises, and with the login when [msg.as_string()] raises, so the
    message is handed over exactly when connect, STARTTLS and login went
    through and the message could be serialised; it writes no file; and it
    returns [True] exactly when all five commands went through. *)
Theorem send_email_alert_smtp_order env sender_email sender_password recipients subject
    body audio_file video_file st :
  mime_text_error env (full_body env body (now env (ticks st))) = None ->
  let run := send_email_alert env sender_email sender_password recipients subject body
               audio_file video_file st in
  let msg := composed env st sender_email recipients subject body audio_file video_file in
  let n := smtp_reached env sender_email sender_password recipients msg in
  fst (build_message env sender_email recipients subject body audio_file video_file st)
  = Ret msg
  /\ (1 <= n <= 5)%nat
  /\ trace (snd run)
     = trace st ++ take n (smtp_commands sender_email sender_password recipients msg)
  /\ files (snd run) = files st
  /\ ((4 <= n)%nat
      <-> smtp_connect env = None /\ smtp_starttls env = None
          /\ smtp_login env sender_email sender_password = None
          /\ as_string_error env msg = None)
  /\ (fst run = Ret true <-> n = 5%nat /\ smtp_quit env = None).
Proof.
  intros Hb run msg n. subst run msg n.
  rewrite (send_email_alert_run _ _ _ _ _ _ _ _ _ Hb),
    (build_message_run _ _ _ _ _ _ _ _ Hb), smtp_send_eq.
  split; [reflexivity |]. split; [apply smtp_reached_bounds |].
  split; [reflexivity |]. split; [reflexivity |].
  split; [apply smtp_reached_sendmail |].
  simpl. rewrite <- smtp_delivered_iff. split; congruence.
Qed.

(** A sender address that holds a line break: the session stops after the
    login, nothing is handed over. *)
Lemma send_email_alert_smtp_order_witness :
  trace (snd (send_email_alert Edge.unserialisable Edge.two_line_sender default_password
                [default_sender] "Emergency Alert!" "Help needed!" "a.wav" "v.avi"
                Scenario.st0))
  = [EvSmtpConnect "smtp.gmail.com" 587; EvSmtpStartTls;
     EvSmtpLogin Edge.two_line_sender default_password].
Proof.
  destruct (send_email_alert_smtp_order Edge.unserialisable Edge.two_line_sender
              default_password [default_sender] "Emergency Alert!" "Help needed!"
              "a.wav" "v.avi" Scenario.st0 eq_refl)
    as (_ & _ & Ht & _).
  exact Ht.
Defined.

(** X6: when the body is accepted and the message serialised, the relay
    accepts the message and only [quit] raises, [send_email_alert] returns
    [False] although the message was handed over. *)
Theorem quit_failure_reported_as_unsent env sender_email sender_password recipients
    subject body audio_file video_file st e :
  let run := send_email_alert env sender_email sender_password recipients subject body
               audio_file video_file st in
  let msg := composed env st sender_email recipients subject body audio_file video_file in
  mime_text_error env (full_body env body (now env (ticks st))) = None ->
  smtp_connect env = None ->
  smtp_starttls env = None ->
  smtp_login env sender_email sender_password = None ->
  as_string_error env msg = None ->
  smtp_sendmail env sender_email recipients msg = None ->
  smtp_quit env = Some e ->
  fst run = Ret false
  /\ In (EvSmtpSendmail sender_email recipients msg) (trace (snd run)).
Proof.
  intros run msg Hb H1 H2 H3 Ha H4 H5. subst run msg.
  rewrite (send_email_alert_run _ _ _ _ _ _ _ _ _ Hb), smtp_send_eq.
  unfold smtp_delivered, smtp_reached, smtp_commands.
  rewrite H1, H2, H3, Ha, H4, H5. simpl.
  split; [reflexivity |]. rewrite in_app_iff. right. simpl. auto.
Qed.

Lemma quit_failure_reported_as_unsent_witness :
  let run := send_email_alert Edge.quit_fails default_sender default_password
               [default_sender] "Emergency Alert!" "Help needed!" "a.wav" "v.avi"
               Scenario.st0 in
  fst run = Ret false
  /\ In (EvSmtpSendmail default_sender [default_sender]
           (composed Edge.quit_fails Scenario.st0 default_sender [default_sender]
              "Emergency Alert!" "Help needed!" "a.wav" "v.avi"))
        (trace (snd run)).
Proof.
  apply (quit_failure_reported_as_unsent Edge.quit_fails default_sender default_password
           [default_sender] "Emergency Alert!" "Help needed!" "a.wav" "v.avi" Scenario.st0
           "SMTPServerDisconnected: Connection unexpectedly closed");
    reflexivity.
Defined.

(** ** Notification Composer *)

Lemma representation_attachment env st k path content :
  files st !! path = Some content -> content <> [] ->
  open_rb_error env path = None ->
  representation env st k path = PAttach (subtype_of k) (basename path) content.
Proof.
  intros Hf Hc Hr. unfold representation. rewrite Hf, Hr.
  destruct content; [congruence | reflexivity].
Qed.

Lemma representation_missing env st k path :
  files st !! path = None \/ files st !! path = Some [] ->
  representation env st k path = PText (missing_note k).
Proof. intros [H | H]; unfold representation; rewrite H; reflexivity. Qed.

Lemma representation_unreadable env st k path content e :
  files st !! path = Some content -> content <> [] ->
  open_rb_error env path = Some e ->
  representation env st k path = PText (error_note k).
Proof.
  intros Hf Hc Hr. unfold representation. rewrite Hf, Hr.
  destruct content; [congruence | reflexivity].
Qed.

(** X7: in the message composed for a body that [MIMEText] accepts, an
    artifact file that is there, not empty and readable is attached byte
    for byte, under the last component of its path: the audio file as the
    [wav] part after the body, the video file as the [avi] part after
    that. *)
Theorem attachment_carries_file_bytes env sender_email recipients subject body
    audio_file video_file st :
  mime_text_error env (full_body env body (now env (ticks st))) = None ->
  exists msg,
    fst (build_message env sender_email recipients subject body audio_file video_file st)
    = Ret msg
    /\ (forall content,
          files st !! audio_file = Some content -> content <> [] ->
          open_rb_error env audio_file = None ->
          msg_parts msg !! 1%nat = Some (PAttach "wav" (basename audio_file) content))
    /\ (forall content,
          files st !! video_file = Some content -> content <> [] ->
          open_rb_error env video_file = None ->
          msg_parts msg !! 2%nat = Some (PAttach "avi" (basename video_file) content)).
Proof.
  intros Hb. rewrite (build_message_run _ _ _ _ _ _ _ _ Hb).
  eexists. split; [reflexivity |].
  split; intros content Hf Hc Hr; simpl;
    rewrite (representation_attachment _ _ _ _ _ Hf Hc Hr); reflexivity.
Qed.

Lemma attachment_carries_file_bytes_witness :
  exists msg,
    fst (build_message Scenario.working default_sender [default_sender]
           "Emergency Alert!" "Help needed!" "captures/alert_audio.wav" "v.avi"
           (Edge.st_with "captures/alert_audio.wav" (list_byte_of_string "RIFFpcm")))
    = Ret msg
    /\ msg_parts msg !! 1%nat
       = Some (PAttach "wav" "alert_audio.wav" (list_byte_of_string "RIFFpcm")).
Proof.
  destruct (attachment_carries_file_bytes Scenario.working default_sender [default_sender]
              "Emergency Alert!" "Help needed!" "captures/alert_audio.wav" "v.avi"
              (Edge.st_with "captures/alert_audio.wav" (list_byte_of_string "RIFFpcm"))
              eq_refl)
    as (msg & Hm & Ha & _).
  exists msg. split; [exact Hm |].
  apply (Ha (list_byte_of_string "RIFFpcm")).
  - reflexivity.
  - discriminate.
  - reflexivity.
Defined.

(** X8: in the message composed for a body that [MIMEText] accepts, an
    artifact file that is absent or empty is replaced by the "could not be
    created due to device limitations" note of its kind, whatever opening
    it would do; one that is there and not empty but cannot be read is
    replaced by the "could not be attached due to an error" note. *)
Theorem unusable_file_becomes_note env sender_email recipients subject body
    audio_file video_file st :
  mime_text_error env (full_body env body (now env (ticks st))) = None ->
  exists msg,
    fst (build_message env sender_email recipients subject body audio_file video_file st)
    = Ret msg
    /\ (files st !! audio_file = None \/ files st !! audio_file = Some [] ->
        msg_parts msg !! 1%nat = Some (PText audio_missing_note))
    /\ (files st !! video_file = None \/ files st !! video_file = Some [] ->
        msg_parts msg !! 2%nat = Some (PText video_missing_note))
    /\ (forall content e,
          files st !! audio_file = Some content -> content <> [] ->
          open_rb_error env audio_file = Some e ->
          msg_parts msg !! 1%nat = Some (PText audio_error_note))
    /\ (forall content e,
          files st !! video_file = Some content -> content <> [] ->
          open_rb_error env video_file = Some e ->
          msg_parts msg !! 2%nat = Some (PText video_error_note)).
Proof.
  intros Hb. rewrite (build_message_run _ _ _ _ _ _ _ _ Hb).
  eexists. split; [reflexivity |].
  repeat split.
  - intros H. simpl. rewrite (representation_missing _ _ _ _ H). reflexivity.
  - intros H. simpl. rewrite (representation_missing _ _ _ _ H). reflexivity.
  - intros content e Hf Hc Hr. simpl.
    rewrite (representation_unreadable _ _ _ _ _ _ Hf Hc Hr). reflexivity.
  - intros content e Hf Hc Hr. simpl.
    rewrite (representation_unreadable _ _ _ _ _ _ Hf Hc Hr). reflexivity.
Qed.

Lemma unusable_file_becomes_note_witness :
  exists msg,
    fst (build_message Scenario.working default_sender [default_sender]
           "Emergency Alert!" "Help needed!" "a.wav" "v.avi" (Edge.st_with "a.wav" []))
    = Ret msg
    /\ msg_parts msg !! 1%nat = Some (PText audio_missing_note)
    /\ msg_parts msg !! 2%nat = Some (PText video_missing_note).
Proof.
  destruct (unusable_file_becomes_note Scenario.working default_sender [default_sender]
              "Emergency Alert!" "Help needed!" "a.wav" "v.avi" (Edge.st_with "a.wav" [])
              eq_refl)
    as (msg & Hm & Ha & Hv & _).
  exists msg. split; [exact Hm |]. split.
  - apply Ha. right. reflexivity.
  - apply Hv. left. reflexivity.
Defined.

(** ** Evidence Capturer *)

(** The [try] body of the audio step raises when the capture fails. *)
Lemma audio_body_raises env observed path st :
  audio_failure env path ->
  exists e partial,
    bind (match sd_rec env with inl e => raise e | inr r => ret r end)
      (fun recording =>
         bind (soundfile_write env path recording)
           (fun _ => bind (update_status (callback_of observed)
                             "Audio recorded successfully" true)
                       (fun _ => ret true))) st
    = (Raise e, snd (set_file path partial st)).
Proof.
  intros [e He | recording partial e Hr Hw].
  - exists e, None. unfold bind. rewrite He. destruct st; reflexivity.
  - exists e, partial. unfold bind, soundfile_write. rewrite Hr. simpl.
    rewrite Hw. unfold bind. simpl. reflexivity.
Qed.

(** X9: when the audio capture fails, [record_audio] replaces whatever
    [sf.write] may have left by the 22-byte placeholder and returns
    [False]; if the placeholder cannot be written either, the error of
    [open] is raised out of the step.  When the capture succeeds it returns
    [True] and the file is what [sf.write] wrote. *)
Theorem record_audio_outcomes env observed path st :
  (audio_failure env path ->
   open_wb_error env path = None ->
   fst (record_audio env (callback_of observed) path st) = Ret false
   /\ files (snd (record_audio env (callback_of observed) path st))
      = <[path := placeholder_audio]> (files st))
  /\ (forall e,
        audio_failure env path ->
        open_wb_error env path = Some e ->
        fst (record_audio env (callback_of observed) path st) = Raise e)
  /\ (forall recording content,
        sd_rec env = inr recording ->
        sf_write env path recording = (Some content, None) ->
        fst (record_audio env (callback_of observed) path st) = Ret true
        /\ files (snd (record_audio env (callback_of observed) path st))
           = <[path := content]> (files st)).
Proof.
  split; [| split].
  - intros Hf Hw. unfold record_audio.
    rewrite (bind_Ret _ _ _ _ _ (update_status_run observed _ _ st)).
    match goal with |- context [try_except _ _ ?s] => set (s1 := s) end.
    destruct (audio_body_raises env observed path s1 Hf) as (e & partial & Hb).
    rewrite (try_except_Raise _ _ _ _ _ Hb).
    rewrite (bind_Ret _ _ _ _ _ (update_status_run observed _ _ _)).
    unfold bind, write_file. rewrite Hw. simpl.
    split; [reflexivity |].
    subst s1. destruct observed, partial; simpl;
      rewrite ?insert_insert_eq; reflexivity.
  - intros e Hf Hw. unfold record_audio.
    rewrite (bind_Ret _ _ _ _ _ (update_status_run observed _ _ st)).
    match goal with |- context [try_except _ _ ?s] => set (s1 := s) end.
    destruct (audio_body_raises env observed path s1 Hf) as (e' & partial & Hb).
    rewrite (try_except_Raise _ _ _ _ _ Hb).
    rewrite (bind_Ret _ _ _ _ _ (update_status_run observed _ _ _)).
    unfold bind, write_file. rewrite Hw. reflexivity.
  - intros recording content Hr Hw. unfold record_audio.
    rewrite (bind_Ret _ _ _ _ _ (update_status_run observed _ _ st)).
    unfold try_except, bind, soundfile_write. rewrite Hr. simpl. rewrite Hw.
    unfold bind. simpl. rewrite update_status_run. simpl.
    destruct observed; split; reflexivity.
Qed.

Lemma record_audio_outcomes_witness :
  fst (record_audio Scenario.no_microphone (callback_of true) "a.wav"
         (Edge.st_with "a.wav" (list_byte_of_string "stale"))) = Ret false
  /\ files (snd (record_audio Scenario.no_microphone (callback_of true) "a.wav"
                   (Edge.st_with "a.wav" (list_byte_of_string "stale"))))
     = <["a.wav" := placeholder_audio]>
         (files (Edge.st_with "a.wav" (list_byte_of_string "stale"))).
Proof.
  apply (proj1 (record_audio_outcomes Scenario.no_microphone true "a.wav"
                  (Edge.st_with "a.wav" (list_byte_of_string "stale")))).
  - apply (AfDevice _ _ "Error querying device -1"). reflexivity.
  - reflexivity.
Defined.

Lemma returns_bind {A B} (m : M A) (k : A -> M B) st :
  returns m st ->
  (forall a st', m st = (Ret a, st') -> returns (k a) st') ->
  returns (bind m k) st.
Proof.
  intros (a & st' & Hm) Hk. unfold returns. rewrite (bind_Ret _ _ _ _ _ Hm).
  apply (Hk a st' Hm).
Qed.

(** The handler of the video step (lines 219-224) returns when the
    placeholder can be written. *)
Lemma video_handler_returns env observed path e st :
  open_wb_error env path = None ->
  returns
    (bind (update_status (callback_of observed)
             ("Error recording video: " +:+ e
              +:+ ". Sending email without video attachment.") false)
       (fun _ =>
          bind (path_exists path)
            (fun ex =>
               bind (if negb ex then write_file env path placeholder_video else ret tt)
                 (fun _ => ret false)))) st.
Proof.
  intros Hw. apply returns_bind; [apply update_status_returns |].
  intros _ s1 _. apply returns_bind; [eexists _, _; reflexivity |].
  intros ex s2 _. apply returns_bind.
  - destruct ex; simpl; [eexists _, _; reflexivity |].
    unfold write_file. rewrite Hw. eexists _, _. reflexivity.
  - intros _ s3 _. eexists _, _. reflexivity.
Qed.

Lemma video_step_returns env fuel observed path st :
  open_wb_error env path = None ->
  clock_progress env fuel ->
  returns (capture_video env fuel (callback_of observed) path) st.
Proof.
  intros Hw Hc. unfold capture_video.
  apply returns_bind; [apply update_status_returns |].
  intros _ s1 _. unfold returns, try_except.
  destruct (video_capture env).
  - apply video_handler_returns, Hw.
  - rewrite (bind_Ret _ _ _ _ _ (update_status_run observed _ _ s1)).
    unfold bind, write_file. rewrite Hw. simpl. eauto.
  - unfold bind at 1. unfold set_file at 1.
    unfold bind at 1. unfold datetime_now at 1. simpl ticks.
    match goal with |- context [bind (video_loop env fuel path ?t ?w) _ ?s] =>
      set (s2 := s); set (t0 := t) end.
    destruct (Hc (ticks s1)) as (n & Hn & Ht).
    pose proof (video_loop_ends env fuel path t0 [] s2 n Hn) as Hd.
    unfold bind at 1.
    destruct (video_loop env fuel path t0 [] s2) as [[[] | e | ] s3] eqn:Hl.
    + rewrite (bind_Ret _ _ _ _ _ (update_status_run observed _ _ s3)). eauto.
    + apply video_handler_returns, Hw.
    + exfalso. apply Hd; [| reflexivity]. subst s2 t0. simpl ticks. exact Ht.
Qed.

(** X10: the video step returns (it neither raises nor runs on for ever)
    when the placeholder can be written and the clock makes progress: from
    any reading on, one of the next [fuel] readings shows ten seconds or
    more elapsed. *)
Theorem capture_video_returns env fuel observed path st :
  open_wb_error env path = None ->
  clock_progress env fuel ->
  returns (capture_video env fuel (callback_of observed) path) st.
Proof. apply video_step_returns. Qed.

Lemma working_clock_progress : clock_progress Scenario.working 5.
Proof.
  intros k. exists 2%nat. split; [lia |].
  unfold Scenario.working, now.
  replace (1700000000000000 + 4000000 * Z.of_nat (S k + 2)
           - (1700000000000000 + 4000000 * Z.of_nat k)) with 12000000 by lia.
  vm_compute. discriminate.
Defined.

Lemma capture_video_returns_witness :
  returns (capture_video Scenario.working 5 (callback_of true) "v.avi") Scenario.st0.
Proof.
  apply (capture_video_returns Scenario.working 5 true "v.avi" Scenario.st0).
  - reflexivity.
  - exact working_clock_progress.
Defined.

(** X11: when the camera does not open, or opening it raises, the video
    step returns [False] (given that the placeholder can be written); it
    writes the placeholder over the file when the camera reports closed,
    but when opening raised it writes it only if no file of that name
    exists, and keeps an existing file as it is. *)
Theorem capture_video_without_camera env fuel observed path st :
  open_wb_error env path = None ->
  (video_capture env = CaptureClosed ->
   fst (capture_video env fuel (callback_of observed) path st) = Ret false
   /\ files (snd (capture_video env fuel (callback_of observed) path st))
      = <[path := placeholder_video]> (files st))
  /\ (forall e,
        video_capture env = CaptureRaise e ->
        fst (capture_video env fuel (callback_of observed) path st) = Ret false
        /\ files (snd (capture_video env fuel (callback_of observed) path st))
           = match files st !! path with
             | Some _ => files st
             | None => <[path := placeholder_video]> (files st)
             end).
Proof.
  intros Hw. split.
  - intros Hc. unfold capture_video.
    rewrite (bind_Ret _ _ _ _ _ (update_status_run observed _ _ st)).
    unfold try_except. rewrite Hc.
    rewrite (bind_Ret _ _ _ _ _ (update_status_run observed _ _ _)).
    unfold bind, write_file. rewrite Hw. simpl.
    destruct observed; split; reflexivity.
  - intros e Hc. unfold capture_video.
    rewrite (bind_Ret _ _ _ _ _ (update_status_run observed _ _ st)).
    unfold try_except. rewrite Hc. unfold raise.
    rewrite (bind_Ret _ _ _ _ _ (update_status_run observed _ _ _)).
    unfold bind, path_exists, write_file. rewrite Hw.
    replace (files (if observed
                    then snd (emit (EvStatus ("Error recording video: " +:+ e
                            +:+ ". Sending email without video attachment.") false)
                            (if observed
                             then snd (emit (EvStatus "Recording video..." true) st)
                             else st))
                    else if observed
                         then snd (emit (EvStatus "Recording video..." true) st)
                         else st))
      with (files st) by (destruct observed; reflexivity).
    destruct (files st !! path) as [c |] eqn:Hf.
    + rewrite bool_decide_eq_true_2 by eauto. simpl.
      destruct observed; split; reflexivity.
    + rewrite bool_decide_eq_false_2 by (intros [? ?]; discriminate). simpl.
      destruct observed; split; reflexivity.
Qed.

Lemma capture_video_without_camera_witness :
  fst (capture_video Edge.camera_closed 5 (callback_of true) "v.avi" Scenario.st0)
  = Ret false
  /\ files (snd (capture_video Edge.camera_closed 5 (callback_of true) "v.avi"
                   Scenario.st0))
     = <["v.avi" := placeholder_video]> (files Scenario.st0).
Proof.
  apply (proj1 (capture_video_without_camera Edge.camera_closed 5 true "v.avi"
                  Scenario.st0 eq_refl)).
  reflexivity.
Defined.

#[local] Arguments timedelta_seconds : simpl never.

(** X12: when the camera opened, the writer has created its file, and the
    first read raises within the ten seconds, the video step returns
    [False] and keeps the writer's file as it is: no placeholder is
    written, whether [open] would succeed or not. *)
Theorem partial_video_kept env fuel observed path st header e :
  video_capture env = CaptureOpened ->
  writer_file env path [] = Some header ->
  timedelta_seconds (now env (S (ticks st)) - now env (ticks st)) < 10 ->
  cap_read env (reads st) = ReadRaise e ->
  fst (capture_video env (S fuel) (callback_of observed) path st) = Ret false
  /\ files (snd (capture_video env (S fuel) (callback_of observed) path st))
     = <[path := header]> (files st).
Proof.
  intros Hc Hh Ht Hr. apply Z.ltb_lt in Ht.
  unfold capture_video, update_status, callback_of, status_callback, try_except.
  destruct observed;
    unfold bind, emit, set_file, datetime_now; simpl;
    rewrite Hc, Hh; simpl;
    unfold bind, datetime_now, cap_read_next; simpl;
    rewrite Ht; simpl; rewrite Hr; simpl;
    unfold path_exists; simpl;
    (rewrite bool_decide_eq_true_2 by (rewrite lookup_insert_eq; eauto));
    simpl; split; reflexivity.
Qed.

Lemma partial_video_kept_witness :
  fst (capture_video Edge.camera_raises 5 (callback_of true) "v.avi" Scenario.st0)
  = Ret false
  /\ files (snd (capture_video Edge.camera_raises 5 (callback_of true) "v.avi"
                   Scenario.st0))
     = <["v.avi" := list_byte_of_string "AVI "]> (files Scenario.st0).
Proof.
  apply (partial_video_kept Edge.camera_raises 4 true "v.avi" Scenario.st0
           (list_byte_of_string "AVI ") "cv2.error: can't grab frame").
  - reflexivity.
  - reflexivity.
  - vm_compute. reflexivity.
  - reflexivity.
Defined.

(** X13: the loop condition reads the seconds field of the elapsed time
    only.  When the clock is set back after the start reading, by anything
    up to 86390 seconds, that field is ten or more at once: the video step
    reads no frame and reports success. *)
Theorem clock_set_back_ends_recording env fuel observed path st :
  video_capture env = CaptureOpened ->
  now env (ticks st) - 86390000000 <= now env (S (ticks st)) < now env (ticks st) ->
  fst (capture_video env (S fuel) (callback_of observed) path st) = Ret true
  /\ reads (snd (capture_video env (S fuel) (callback_of observed) path st)) = reads st
  /\ trace (snd (capture_video env (S fuel) (callback_of observed) path st))
     = trace st ++ (if observed
                    then [EvStatus "Recording video..." true;
                          EvStatus "Video recorded successfully" true]
                    else []).
Proof.
  intros Hc Ht.
  assert (Hs : 10 <= timedelta_seconds (now env (S (ticks st)) - now env (ticks st))).
  { unfold timedelta_seconds.
    set (d := now env (S (ticks st)) - now env (ticks st)) in *.
    assert (Hd : -86390000000 <= d < 0) by (subst d; lia).
    assert (Hq : -86390 <= d / 1000000 <= -1).
    { split.
      - apply Z.div_le_lower_bound; lia.
      - assert (d / 1000000 < 0) by (apply Z.div_lt_upper_bound; lia). lia. }
    rewrite (Z.mod_eq _ 86400) by lia.
    assert (Hz : d / 1000000 / 86400 = -1).
    { symmetry. apply (Z.div_unique _ _ _ (d / 1000000 + 86400)); lia. }
    rewrite Hz. lia. }
  apply Z.ltb_ge in Hs.
  unfold capture_video, update_status, callback_of, status_callback, try_except.
  destruct observed;
    unfold bind, emit, set_file, datetime_now; simpl;
    rewrite Hc; simpl;
    unfold bind, datetime_now; simpl;
    rewrite Hs; simpl; rewrite <- ?app_assoc, ?app_nil_r; repeat split.
Qed.

Lemma clock_set_back_ends_recording_witness :
  fst (capture_video Edge.clock_set_back 5 (callback_of true) "v.avi" Scenario.st0)
  = Ret true
  /\ reads (snd (capture_video Edge.clock_set_back 5 (callback_of true) "v.avi"
                   Scenario.st0)) = reads Scenario.st0
  /\ trace (snd (capture_video Edge.clock_set_back 5 (callback_of true) "v.avi"
                   Scenario.st0))
     = trace Scenario.st0 ++ [EvStatus "Recording video..." true;
                              EvStatus "Video recorded successfully" true].
Proof.
  apply (clock_set_back_ends_recording Edge.clock_set_back 4 true "v.avi" Scenario.st0).
  - reflexivity.
  - vm_compute. split; [discriminate | reflexivity].
Defined.

(** ** Files a computation touches *)

Lemma touches_keep {A} S (m : M A) :
  (forall st, files (snd (m st)) = files st) -> touches S m.
Proof. intros H st path _. rewrite H. reflexivity. Qed.

Lemma touches_ret {A} S (a : A) : touches S (ret a).
Proof. apply touches_keep. reflexivity. Qed.

Lemma touches_raise {A} S e : touches S (@raise A e).
Proof. apply touches_keep. reflexivity. Qed.

Lemma touches_emit S ev : touches S (emit ev).
Proof. apply touches_keep. reflexivity. Qed.

Lemma touches_bind {A B} S (m : M A) (k : A -> M B) :
  touches S m -> (forall a, touches S (k a)) -> touches S (bind m k).
Proof.
  intros Hm Hk st path Hp. unfold bind. specialize (Hm st path Hp).
  destruct (m st) as [[a | e | ] st1]; simpl in Hm; simpl; try exact Hm.
  rewrite (Hk a st1 path Hp). exact Hm.
Qed.

Lemma touches_try_except {A} S (m : M A) (h : exn -> M A) :
  touches S m -> (forall e, touches S (h e)) -> touches S (try_except m h).
Proof.
  intros Hm Hh st path Hp. unfold try_except. specialize (Hm st path Hp).
  destruct (m st) as [[a | e | ] st1]; simpl in Hm; simpl; try exact Hm.
  rewrite (Hh e st1 path Hp). exact Hm.
Qed.

Lemma touches_set_file (S : string -> Prop) path content :
  S path -> touches S (set_file path content).
Proof.
  intros Hs st p Hp. unfold set_file. simpl. destruct content; [| reflexivity].
  apply lookup_insert_ne. intros ->. contradiction.
Qed.

Lemma touches_write_file (S : string -> Prop) env path content :
  S path -> touches S (write_file env path content).
Proof.
  intros Hs. unfold write_file.
  destruct (open_wb_error env path); [apply touches_raise | apply touches_set_file, Hs].
Qed.

Lemma touches_update_status S observed status success :
  touches S (update_status (callback_of observed) status success).
Proof. apply touches_keep. intros st. rewrite update_status_run. destruct observed; reflexivity. Qed.

Lemma touches_record_audio (S : string -> Prop) env observed path :
  S path -> touches S (record_audio env (callback_of observed) path).
Proof.
  intros Hs. unfold record_audio, soundfile_write.
  apply touches_bind; [apply touches_update_status | intros _].
  apply touches_try_except.
  - apply touches_bind; [destruct (sd_rec env); [apply touches_raise | apply touches_ret] |].
    intros recording. destruct (sf_write env path recording) as [content err].
    apply touches_bind.
    + apply touches_bind; [apply touches_set_file, Hs | intros _].
      destruct err; [apply touches_raise | apply touches_ret].
    + intros _. apply touches_bind; [apply touches_update_status | intros _; apply touches_ret].
  - intros e. apply touches_bind; [apply touches_update_status | intros _].
    apply touches_bind; [apply touches_write_file, Hs | intros _; apply touches_ret].
Qed.

Lemma touches_video_loop (S : string -> Prop) env fuel path start written :
  S path -> touches S (video_loop env fuel path start written).
Proof.
  intros Hs. revert written. induction fuel as [| fuel IH]; intros written; simpl.
  - apply touches_keep. reflexivity.
  - apply touches_bind; [apply touches_keep; reflexivity | intros t].
    destruct (timedelta_seconds (t - start) <? 10); [| apply touches_ret].
    apply touches_bind.
    + apply touches_keep. intros st. unfold cap_read_next.
      destruct (cap_read env (reads st)); reflexivity.
    + intros [frame |]; [| apply touches_ret].
      apply touches_bind; [apply touches_set_file, Hs | intros _; apply IH].
Qed.

Lemma touches_capture_video (S : string -> Prop) env fuel observed path :
  S path -> touches S (capture_video env fuel (callback_of observed) path).
Proof.
  intros Hs. unfold capture_video.
  apply touches_bind; [apply touches_update_status | intros _].
  apply touches_try_except.
  - destruct (video_capture env).
    + apply touches_raise.
    + apply touches_bind; [apply touches_update_status | intros _].
      apply touches_bind; [apply touches_write_file, Hs | intros _; apply touches_ret].
    + apply touches_bind; [apply touches_set_file, Hs | intros _].
      apply touches_bind; [apply touches_keep; reflexivity | intros t].
      apply touches_bind; [apply touches_video_loop, Hs | intros _].
      apply touches_bind; [apply touches_update_status | intros _; apply touches_ret].
  - intros e. apply touches_bind; [apply touches_update_status | intros _].
    apply touches_bind; [apply touches_keep; reflexivity | intros ex].
    apply touches_bind; [| intros _; apply touches_ret].
    destruct (negb ex); [apply touches_write_file, Hs | apply touches_ret].
Qed.

Lemma send_email_alert_files env sender_email sender_password recipients subject body
    audio_file video_file st :
  files (snd (send_email_alert env sender_email sender_password recipients subject body
                audio_file video_file st)) = files st.
Proof.
  rewrite send_email_alert_eq.
  destruct (mime_text_error env _); [reflexivity |].
  rewrite smtp_send_eq. reflexivity.
Qed.

Lemma touches_dispatch S env observed sender_email sender_password email_recipients
    subject body audio_filename video_filename :
  touches S (dispatch env (callback_of observed) sender_email sender_password
               email_recipients subject body audio_filename video_filename).
Proof.
  unfold dispatch, send_sms_alert.
  apply touches_bind; [apply touches_update_status | intros _].
  apply touches_bind; [apply touches_keep; intros st; apply send_email_alert_files |].
  intros e. apply touches_bind; [destruct e; apply touches_update_status | intros _].
  apply touches_bind; [apply touches_update_status | intros _].
  apply touches_bind; [apply touches_ret | intros s].
  apply touches_bind; [destruct s; apply touches_update_status | intros _].
  apply touches_bind; [apply touches_update_status | intros _; apply touches_ret].
Qed.

Lemma reverse_geocode_effect env api_key latitude longitude st :
  snd (reverse_geocode env api_key latitude longitude st)
  = if geocode_guard api_key latitude longitude
    then st
    else snd (emit (EvHttpGet (geocode_url env (py_str env (key_val api_key))
                                 latitude longitude)) st).
Proof.
  destruct (geocode_guard api_key latitude longitude) eqn:G.
  - rewrite reverse_geocode_guarded by exact G. reflexivity.
  - rewrite reverse_geocode_queried by exact G. apply geocode_query_effect.
Qed.

(** X14: a session writes no file but its two artifacts, named after the
    clock reading it takes when it starts capturing, and removes none:
    every other file is after the session what it was before, whatever the
    outcome. *)
Theorem send_alert_touches_only_artifacts env fuel api_key observed st path :
  path <> audio_name env (now env (ticks st)) ->
  path <> video_name env (now env (ticks st)) ->
  files (snd (send_alert env fuel api_key (callback_of observed) st)) !! path
  = files st !! path.
Proof.
  intros Ha Hv. unfold send_alert.
  rewrite (bind_Ret _ _ _ _ _ (update_status_run observed _ _ st)).
  rewrite (bind_Ret _ _ _ _ _ (update_status_run observed _ _ _)).
  match goal with |- context [bind (get_ip_location env) _ ?s] => set (s2 := s) end.
  assert (Hf2 : files s2 = files st /\ ticks s2 = ticks st)
    by (subst s2; destruct observed; split; reflexivity).
  destruct Hf2 as (Hf2 & Ht2).
  pose proof (get_ip_location_effect env s2) as E3.
  unfold bind at 1.
  destruct (get_ip_location env s2) as [[[latitude longitude] | e | ] s3] eqn:H3;
    simpl in E3; try (subst s3; simpl; rewrite Hf2; reflexivity).
  assert (Hf3 : files s3 = files st) by (subst s3; simpl; exact Hf2).
  assert (Ht3 : ticks s3 = ticks st) by (subst s3; simpl; exact Ht2).
  destruct latitude as [lat |], longitude as [lon |];
    try (rewrite (bind_Ret _ _ _ _ _ (update_status_run observed _ _ s3));
         simpl; destruct observed; simpl; rewrite Hf3; reflexivity).
  pose proof (reverse_geocode_effect env api_key (Some lat) (Some lon) s3) as E4.
  unfold bind at 1.
  destruct (reverse_geocode env api_key (Some lat) (Some lon) s3)
    as [[v | e | ] s4] eqn:H4; simpl in E4;
    try (subst s4; destruct (geocode_guard api_key (Some lat) (Some lon));
         simpl; rewrite Hf3; reflexivity).
  rewrite (bind_Ret _ _ _ _ _ (update_status_run observed _ _ s4)).
  match goal with |- context [bind (datetime_now env) _ ?s] => set (s5 := s) end.
  assert (H5 : files s5 = files st /\ ticks s5 = ticks st).
  { subst s5 s4. destruct (geocode_guard api_key (Some lat) (Some lon)), observed;
      simpl; auto. }
  destruct H5 as (Hf5 & Ht5).
  unfold bind at 1. unfold datetime_now at 1. rewrite Ht5.
  fold (audio_name env (now env (ticks st))).
  fold (video_name env (now env (ticks st))).
  set (S := fun p => p = audio_name env (now env (ticks st))
                     \/ p = video_name env (now env (ticks st))).
  assert (Hp : ~ S path) by (intros [-> | ->]; contradiction).
  match goal with |- files (snd (?m ?s)) !! _ = _ =>
    assert (Ht : touches S m); [| rewrite (Ht s path Hp); simpl; rewrite Hf5; reflexivity]
  end.
  apply touches_bind; [apply touches_record_audio; left; reflexivity | intros _].
  apply touches_bind; [apply touches_capture_video; right; reflexivity | intros _].
  apply touches_dispatch.
Qed.

Lemma send_alert_touches_only_artifacts_witness :
  files (snd (send_alert Scenario.working 5 (Some "KEY") (callback_of true)
                (Edge.st_with "notes.txt" (list_byte_of_string "keep")))) !! "notes.txt"
  = Some (list_byte_of_string "keep").
Proof.
  rewrite (send_alert_touches_only_artifacts Scenario.working 5 (Some "KEY") true
             (Edge.st_with "notes.txt" (list_byte_of_string "keep")) "notes.txt").
  - reflexivity.
  - vm_compute. discriminate.
  - vm_compute. discriminate.
Defined.

(** ** Sessions that return *)





(** ** Progress reports *)

Lemma dispatch_report env sender_email sender_password email_recipients subject body
    audio_filename video_filename st :
  mime_text_error env (full_body env body (now env (ticks st))) = None ->
  let msg := composed env st sender_email email_recipients subject body
               audio_filename video_filename in
  let n := smtp_reached env sender_email sender_password email_recipients msg in
  let email_success :=
    smtp_delivered env sender_email sender_password email_recipients msg in
  dispatch env (callback_of true) sender_email sender_password email_recipients
    subject body audio_filename video_filename st
  = (Ret true,
     {| files := files st;
        trace := trace st
                 ++ [EvStatus "Sending email alert..." true]
                 ++ take n (smtp_commands sender_email sender_password
                              email_recipients msg)
                 ++ [EvStatus (if email_success
                               then "Email alert sent successfully"
                               else "Failed to send email alert") email_success;
                     EvStatus "Sending SMS alert..." true;
                     EvStatus "SMS alert sent successfully" true;
                     EvStatus "Emergency alert process completed." true];
        ticks := S (ticks st); reads := reads st |}).
Proof.
  intros Hb msg n email_success.
  pose (st1 := snd (emit (EvStatus "Sending email alert..." true) st)).
  pose proof (send_email_alert_run env sender_email sender_password email_recipients
                subject body audio_filename video_filename st1 Hb) as Hr.
  rewrite smtp_send_eq in Hr.
  change (composed env st1 sender_email email_recipients subject body
            audio_filename video_filename) with msg in Hr.
  fold n email_success in Hr.
  unfold dispatch.
  rewrite (bind_Ret _ _ _ _ _ (update_status_run true _ _ st)).
  fold st1. rewrite (bind_Ret _ _ _ _ _ Hr).
  unfold bind, send_sms_alert, ret.
  destruct email_success; simpl; rewrite <- !app_assoc; reflexivity.
Qed.

(** X16: for a body that [MIMEText] accepts, the events of a dispatch
    step are, in this order: the report "Sending email alert...", the SMTP
    commands up to the first that raises (up to the login when
    [msg.as_string()] raises), the report of the email channel as it went
    ("Email alert sent successfully", or "Failed to send email alert" with
    [success = False]), and then in every run "Sending SMS alert...", "SMS
    alert sent successfully" and "Emergency alert process completed."; the
    step returns [True] and writes no file. *)
Theorem dispatch_progress_reports env sender_email sender_password email_recipients
    subject body audio_filename video_filename st :
  mime_text_error env (full_body env body (now env (ticks st))) = None ->
  let run := dispatch env (callback_of true) sender_email sender_password
               email_recipients subject body audio_filename video_filename st in
  let msg := composed env st sender_email email_recipients subject body
               audio_filename video_filename in
  let n := smtp_reached env sender_email sender_password email_recipients msg in
  let email_success :=
    smtp_delivered env sender_email sender_password email_recipients msg in
  (1 <= n <= 5)%nat
  /\ (email_success = true <-> n = 5%nat /\ smtp_quit env = None)
  /\ fst run = Ret true
  /\ files (snd run) = files st
  /\ trace (snd run)
     = trace st
       ++ [EvStatus "Sending email alert..." true]
       ++ take n (smtp_commands sender_email sender_password email_recipients msg)
       ++ [EvStatus (if email_success
                     then "Email alert sent successfully"
                     else "Failed to send email alert") email_success;
           EvStatus "Sending SMS alert..." true;
           EvStatus "SMS alert sent successfully" true;
           EvStatus "Emergency alert process completed." true].
Proof.
  intros Hb run msg n email_success. subst run.
  rewrite (dispatch_report env sender_email sender_password email_recipients subject
             body audio_filename video_filename st Hb).
  split; [apply smtp_reached_bounds |]. split; [apply smtp_delivered_iff |].
  repeat split.
Qed.

(** The relay rejects the credential: three commands, then the report of
    the failure. *)
Lemma dispatch_progress_reports_witness :
  trace (snd (dispatch Scenario.bad_credential (callback_of true) default_sender
                default_password [default_sender] "Emergency Alert!" "Help needed!"
                "a.wav" "v.avi" Scenario.st0))
  = [EvStatus "Sending email alert..." true;
     EvSmtpConnect "smtp.gmail.com" 587; EvSmtpStartTls;
     EvSmtpLogin default_sender default_password;
     EvStatus "Failed to send email alert" false;
     EvStatus "Sending SMS alert..." true;
     EvStatus "SMS alert sent successfully" true;
     EvStatus "Emergency alert process completed." true].
Proof.
  destruct (dispatch_progress_reports Scenario.bad_credential default_sender
              default_password [default_sender] "Emergency Alert!" "Help needed!"
              "a.wav" "v.avi" Scenario.st0 eq_refl)
    as (_ & _ & _ & _ & Ht).
  exact Ht.
Defined.

(** X17: a session that returns [True] has reported, last of all,
    "Sending SMS alert...", "SMS alert sent successfully" and "Emergency
    alert process completed.", after a report on the email channel. *)
Theorem send_alert_last_reports env fuel api_key st :
  fst (send_alert env fuel api_key (callback_of true) st) = Ret true ->
  exists (earlier : list event) (email_success : bool),
    trace (snd (send_alert env fuel api_key (callback_of true) st))
    = earlier
      ++ [EvStatus (if email_success
                    then "Email alert sent successfully"
                    else "Failed to send email alert") email_success;
          EvStatus "Sending SMS alert..." true;
          EvStatus "SMS alert sent successfully" true;
          EvStatus "Emergency alert process completed." true].
Proof.
  intros Hb.
  destruct (get_ip_location_returns env st) as ([latitude longitude] & s & Hl).
  assert (Hl' : fst (get_ip_location env st) = Ret (latitude, longitude))
    by (rewrite Hl; reflexivity).
  destruct latitude as [lat |]; [destruct longitude as [lon |] |].
  - destruct (send_alert_reaches_dispatch _ _ _ _ _ _ _ _ Hb Hl')
      as (se & pw & rc & su & bo & af & vf & st_d & Hd & _).
    destruct (dispatch_inv _ _ _ _ _ _ _ _ _ _ _ _ Hd) as (e0 & st_e & He & _).
    rewrite send_email_alert_eq, update_status_ticks in He.
    destruct (mime_text_error env (full_body env bo (now env (ticks st_d)))) eqn:Hm;
      [discriminate |].
    pose proof (dispatch_report env se pw rc su bo af vf st_d Hm) as Hd'.
    cbv zeta in Hd'. rewrite Hd in Hd'. injection Hd' as Hs.
    unfold callback_of in *. rewrite Hs.
    eexists (trace st_d ++ [EvStatus "Sending email alert..." true] ++ take _ _), _.
    cbn [trace]. rewrite <- !app_assoc. reflexivity.
  - destruct (send_alert_early env fuel api_key true st _ _ Hl' (or_intror eq_refl))
      as (st' & H & _). rewrite H in Hb. discriminate.
  - destruct (send_alert_early env fuel api_key true st _ _ Hl' (or_introl eq_refl))
      as (st' & H & _). rewrite H in Hb. discriminate.
Qed.

Lemma send_alert_last_reports_witness :
  exists (earlier : list event) (email_success : bool),
    trace (snd (send_alert Scenario.bad_credential 5 (Some "KEY") (callback_of true)
                  Scenario.st0))
    = earlier
      ++ [EvStatus (if email_success
                    then "Email alert sent successfully"
                    else "Failed to send email alert") email_success;
          EvStatus "Sending SMS alert..." true;
          EvStatus "SMS alert sent successfully" true;
          EvStatus "Emergency alert process completed." true].
Proof.
  apply (send_alert_last_reports Scenario.bad_credential 5 (Some "KEY") Scenario.st0).
  vm_compute. reflexivity.
Defined.

(** ** Requests and deliveries of a session *)

Lemma emits_get_ip_location_to (P : event -> Prop) env :
  P (EvHttpGet "https://ipinfo.io/json") -> emits P (get_ip_location env).
Proof.
  intros Hp st. rewrite get_ip_location_effect. eexists. split; [reflexivity |].
  repeat constructor. exact Hp.
Qed.

Lemma emits_reverse_geocode_to (P : event -> Prop) env api_key latitude longitude :
  (geocode_guard api_key latitude longitude = false ->
   P (EvHttpGet (geocode_url env (py_str env (key_val api_key)) latitude longitude))) ->
  emits P (reverse_geocode env api_key latitude longitude).
Proof.
  intros Hp st. rewrite reverse_geocode_effect.
  destruct (geocode_guard api_key latitude longitude).
  - exists []. rewrite app_nil_r. split; [reflexivity | constructor].
  - eexists. split; [reflexivity |]. repeat constructor. auto.
Qed.

Lemma Forall_take_of {A} (P : A -> Prop) n (l : list A) : Forall P l -> Forall P (take n l).
Proof.
  intros H. revert n. induction H; intros [| n]; simpl; constructor; auto.
Qed.

Lemma emits_send_email_alert_to (P : event -> Prop) env sender_email sender_password
    recipients subject body audio_file video_file :
  (forall msg,
     msg_from msg = sender_email -> msg_to msg = join ", " recipients ->
     msg_subject msg = subject ->
     Forall P (smtp_commands sender_email sender_password recipients msg)) ->
  emits P (send_email_alert env sender_email sender_password recipients subject body
             audio_file video_file).
Proof.
  intros Hp st. rewrite send_email_alert_eq.
  destruct (mime_text_error env _).
  - exists []. simpl. rewrite app_nil_r. split; [reflexivity | constructor].
  - rewrite smtp_send_eq. eexists. split; [reflexivity |].
    apply Forall_take_of, Hp; reflexivity.
Qed.

Lemma emits_dispatch_to (P : event -> Prop) env observed sender_email sender_password
    email_recipients subject body audio_filename video_filename :
  (forall status success, P (EvStatus status success)) ->
  (forall msg,
     msg_from msg = sender_email -> msg_to msg = join ", " email_recipients ->
     msg_subject msg = subject ->
     Forall P (smtp_commands sender_email sender_password email_recipients msg)) ->
  emits P (dispatch env (callback_of observed) sender_email sender_password
             email_recipients subject body audio_filename video_filename).
Proof.
  intros Hs Hm. unfold dispatch, send_sms_alert.
  repeat first [ emits_step
               | apply emits_update_status; assumption
               | apply emits_send_email_alert_to; assumption ].
Qed.

Lemma emits_send_alert_to (P : event -> Prop) env fuel api_key observed :
  (forall status success, P (EvStatus status success)) ->
  P (EvHttpGet "https://ipinfo.io/json") ->
  (forall lat lon,
     geocode_guard api_key (Some lat) (Some lon) = false ->
     P (EvHttpGet (geocode_url env (py_str env (key_val api_key)) (Some lat) (Some lon)))) ->
  (forall msg,
     msg_from msg = environ_get env "SENDER_EMAIL" default_sender ->
     msg_to msg
     = join ", " (split_on "," (environ_get env "EMAIL_RECIPIENTS" default_sender)) ->
     msg_subject msg = "Emergency Alert!" ->
     Forall P (smtp_commands (environ_get env "SENDER_EMAIL" default_sender)
                 (environ_get env "EMAIL_PASSWORD" default_password)
                 (split_on "," (environ_get env "EMAIL_RECIPIENTS" default_sender)) msg)) ->
  emits P (send_alert env fuel api_key (callback_of observed)).
Proof.
  intros Hs Hi Hg Hm. unfold send_alert.
  repeat first [ emits_step
               | apply emits_update_status; assumption
               | apply emits_get_ip_location_to; assumption
               | apply emits_reverse_geocode_to; apply Hg
               | apply emits_record_audio; assumption
               | apply emits_capture_video; assumption
               | apply emits_dispatch_to; assumption ].
Qed.

(** X18: every HTTP request of a session goes to [https://ipinfo.io/json]
    or is the reverse-geocoding request for coordinates and the key of the
    session; no other URL is requested, whatever the outcome. *)
Theorem send_alert_requests env fuel api_key observed st :
  exists evs,
    trace (snd (send_alert env fuel api_key (callback_of observed) st)) = trace st ++ evs
    /\ Forall (http_to (fun url =>
                 url = "https://ipinfo.io/json"
                 \/ exists lat lon,
                      url = "https://geocode.reverse.hereapi.com/v1/reverse?at="
                            +:+ float_str env lat +:+ "," +:+ float_str env lon
                            +:+ "&apiKey=" +:+ py_str env (key_val api_key))) evs.
Proof.
  apply emits_send_alert_to.
  - intros; exact I.
  - left. reflexivity.
  - intros lat lon _. right. exists lat, lon. reflexivity.
  - intros msg _ _ _. repeat constructor.
Qed.

(** X19: when [HERE_MAPS_API_KEY] is not set, or is empty, the session
    the [/sos] route starts sends no reverse-geocoding request: its only
    HTTP request is the IP lookup. *)
Theorem sos_without_key_requests env fuel st :
  environ env !! "HERE_MAPS_API_KEY" = None
  \/ environ env !! "HERE_MAPS_API_KEY" = Some "" ->
  exists evs,
    trace (snd (fst (sos env fuel) st)) = trace st ++ evs
    /\ Forall (http_to (fun url => url = "https://ipinfo.io/json")) evs.
Proof.
  intros Hk. unfold sos, emergency_sos. simpl fst.
  assert (Hkey : environ_get env "HERE_MAPS_API_KEY" "" = "")
    by (unfold environ_get; destruct Hk as [-> | ->]; reflexivity).
  rewrite Hkey.
  apply (emits_send_alert_to _ env fuel (Some "") true).
  - intros; exact I.
  - reflexivity.
  - intros lat lon Hg. discriminate.
  - intros msg _ _ _. repeat constructor.
Qed.

Lemma sos_without_key_requests_witness :
  exists evs,
    trace (snd (fst (sos Scenario.working 5) Scenario.st0)) = trace Scenario.st0 ++ evs
    /\ Forall (http_to (fun url => url = "https://ipinfo.io/json")) evs.
Proof.
  apply (sos_without_key_requests Scenario.working 5 Scenario.st0).
  left. reflexivity.
Defined.

(** X20: every SMTP login and every delivery of a session uses the
    sender of [SENDER_EMAIL], the password of [EMAIL_PASSWORD] and the
    recipients of [EMAIL_RECIPIENTS] split at the commas (each with the
    embedded default when the variable is not set); the message delivered
    has that sender as [From], the recipients joined by [", "] as [To], and
    the subject ["Emergency Alert!"]. *)
Theorem send_alert_envelope env fuel api_key observed st :
  exists evs,
    trace (snd (send_alert env fuel api_key (callback_of observed) st)) = trace st ++ evs
    /\ Forall (envelope (environ_get env "SENDER_EMAIL" default_sender)
                 (environ_get env "EMAIL_PASSWORD" default_password)
                 (split_on "," (environ_get env "EMAIL_RECIPIENTS" default_sender))
                 "Emergency Alert!") evs.
Proof.
  apply emits_send_alert_to.
  - intros; exact I.
  - exact I.
  - intros; exact I.
  - intros msg Hf Ht Hs. unfold smtp_commands. repeat constructor; auto.
Qed.

(** ** Sessions that raise *)

Lemma aborts_bind {A B} P e (m : M A) (k : A -> M B) st :
  emits P m -> returns m st ->
  (forall a st1, m st = (Ret a, st1) -> aborts P e (k a) st1) ->
  aborts P e (bind m k) st.
Proof.
  intros Hm (a & st1 & Hr) Hk. destruct (Hm st) as (evs & Ht & Hp).
  destruct (Hk a st1 Hr) as (Hf & evs' & Ht' & Hp').
  unfold aborts. rewrite (bind_Ret _ _ _ _ _ Hr). split; [exact Hf |].
  exists (evs ++ evs'). rewrite Hr in Ht. simpl in Ht.
  rewrite Ht', Ht, app_assoc. split; [reflexivity | apply Forall_app; auto].
Qed.

Lemma aborts_bind_now {A B} P e (m : M A) (k : A -> M B) st :
  aborts P e m st -> aborts P e (bind m k) st.
Proof.
  intros (Hf & He). unfold aborts, bind.
  destruct (m st) as [[a | e' | ] st1]; simpl in Hf; try discriminate.
  injection Hf as ->. split; [reflexivity | exact He].
Qed.

Lemma record_audio_aborts env observed path st e :
  audio_failure env path ->
  open_wb_error env path = Some e ->
  aborts not_smtp e (record_audio env (callback_of observed) path) st.
Proof.
  intros Hf Hw. split.
  - unfold record_audio.
    rewrite (bind_Ret _ _ _ _ _ (update_status_run observed _ _ st)).
    match goal with |- context [try_except _ _ ?s] => set (s1 := s) end.
    destruct (audio_body_raises env observed path s1 Hf) as (e' & partial & Hb).
    rewrite (try_except_Raise _ _ _ _ _ Hb).
    rewrite (bind_Ret _ _ _ _ _ (update_status_run observed _ _ _)).
    unfold bind, write_file. rewrite Hw. reflexivity.
  - apply emits_record_audio. intros; exact I.
Qed.

(** X21: a session can raise.  When the audio capture fails and the
    placeholder cannot be written either, the error of [open] is raised out
    of [send_alert]: the session ends without a verdict, and no SMTP
    command has been sent. *)
Theorem send_alert_raises_without_placeholder env fuel api_key observed st lat lon e :
  fst (get_ip_location env st) = Ret (Some lat, Some lon) ->
  (forall path, audio_failure env path) ->
  (forall path, open_wb_error env path = Some e) ->
  fst (send_alert env fuel api_key (callback_of observed) st) = Raise e
  /\ exists evs,
       trace (snd (send_alert env fuel api_key (callback_of observed) st))
       = trace st ++ evs
       /\ Forall not_smtp evs.
Proof.
  intros Hl Hf Hw.
  assert (Hs : forall status success, not_smtp (EvStatus status success))
    by (intros; exact I).
  assert (Hh : forall url, not_smtp (EvHttpGet url)) by (intros; exact I).
  change (aborts not_smtp e (send_alert env fuel api_key (callback_of observed)) st).
  unfold send_alert.
  apply aborts_bind;
    [apply emits_update_status, Hs | apply update_status_returns | intros _ s1 _].
  apply aborts_bind;
    [apply emits_update_status, Hs | apply update_status_returns | intros _ s2 _].
  apply aborts_bind;
    [apply emits_get_ip_location, Hh | apply get_ip_location_returns |].
  intros [latitude longitude] s3 H3.
  rewrite (get_ip_location_oblivious env st s2), H3 in Hl. injection Hl as -> ->.
  apply aborts_bind;
    [apply emits_reverse_geocode, Hh | apply reverse_geocode_returns | intros v s4 _].
  apply aborts_bind;
    [apply emits_update_status, Hs | apply update_status_returns | intros _ s5 _].
  apply aborts_bind;
    [apply emits_datetime_now | eexists _, _; reflexivity | intros now_ s6 _].
  apply aborts_bind_now. apply record_audio_aborts; [apply Hf | apply Hw].
Qed.

Lemma send_alert_raises_without_placeholder_witness :
  fst (send_alert Edge.read_only_no_microphone 5 (Some "KEY") (callback_of true)
         Scenario.st0)
  = Raise "PermissionError: [Errno 13] Permission denied"
  /\ exists evs,
       trace (snd (send_alert Edge.read_only_no_microphone 5 (Some "KEY")
                     (callback_of true) Scenario.st0))
       = trace Scenario.st0 ++ evs
       /\ Forall not_smtp evs.
Proof.
  apply (send_alert_raises_without_placeholder Edge.read_only_no_microphone 5
           (Some "KEY") true Scenario.st0 Scenario.lat_12_9 Scenario.lon_77_6).
  - vm_compute. reflexivity.
  - intros path. apply (AfDevice _ _ "Error querying device -1"). reflexivity.
  - intros path. reflexivity.
Defined.

(** ** What a recording holds *)

Lemma video_loop_frames env (enc : list (list byte) -> list byte) fuel path start :
  (forall frames, writer_file env path frames = Some (enc frames)) ->
  forall written st st',
    video_loop env fuel path start written st = (Ret tt, st') ->
    files st !! path = Some (enc written) ->
    exists frames,
      files st' !! path = Some (enc (written ++ frames))
      /\ (forall i frame, frames !! i = Some frame ->
            cap_read env (reads st + i) = ReadFrame frame)
      /\ (forall i, (i < length frames)%nat ->
            timedelta_seconds (now env (ticks st + i) - start) < 10)
      /\ (10 <= timedelta_seconds (now env (ticks st + length frames) - start)
          \/ cap_read env (reads st + length frames) = ReadFailed).
Proof.
  intros Hw. induction fuel as [| fuel IH]; intros written st st' H Hf.
  - simpl in H. discriminate.
  - simpl in H. unfold bind at 1, datetime_now in H.
    destruct (timedelta_seconds (now env (ticks st) - start) <? 10) eqn:Ht.
    + apply Z.ltb_lt in Ht.
      unfold bind at 1, cap_read_next in H. simpl reads in H.
      destruct (cap_read env (reads st)) as [e | | frame] eqn:Hr; simpl in H.
      * discriminate.
      * injection H as <-. exists []. rewrite app_nil_r. simpl.
        rewrite !Nat.add_0_r. split; [exact Hf |].
        split; [intros i frame Hi; discriminate |].
        split; [intros i Hi; lia | right; exact Hr].
      * unfold bind at 1, set_file in H. rewrite Hw in H.
        apply IH in H; [| simpl; apply lookup_insert_eq].
        destruct H as (frames & Hfs & Hrs & Hts & Hend). simpl in Hrs, Hts, Hend.
        exists (frame :: frames). split; [| split; [| split]].
        -- rewrite Hfs, <- app_assoc. reflexivity.
        -- intros [| i] f Hi; simpl in Hi.
           ++ injection Hi as <-. rewrite Nat.add_0_r. exact Hr.
           ++ specialize (Hrs i f Hi).
              replace (reads st + S i)%nat with (S (reads st + i)) by lia. exact Hrs.
        -- intros [| i] Hi; simpl in Hi.
           ++ rewrite Nat.add_0_r. exact Ht.
           ++ replace (ticks st + S i)%nat with (S (ticks st + i)) by lia.
              apply Hts. lia.
        -- simpl length.
           replace (ticks st + S (length frames))%nat
             with (S (ticks st + length frames)) by lia.
           replace (reads st + S (length frames))%nat
             with (S (reads st + length frames)) by lia.
           exact Hend.
    + apply Z.ltb_ge in Ht.
      simpl in H. injection H as <-. exists []. rewrite app_nil_r. simpl.
      rewrite !Nat.add_0_r. split; [exact Hf |].
      split; [intros i frame Hi; discriminate |].
      split; [intros i Hi; lia | left; exact Ht].
Qed.

(** X22: with a writer that produces a file for whatever frames it is
    given, a video step that returns [True] leaves the file of exactly the
    frames the camera returned, in the order of the reads and starting with
    the first: no frame is dropped, repeated or reordered.  Before each of
    these reads the clock showed less than ten seconds elapsed, and the
    recording ends only when the clock shows ten seconds or more, or when
    the next read fails. *)
Theorem recording_holds_frames_read env (enc : list (list byte) -> list byte) fuel
    observed path st :
  video_capture env = CaptureOpened ->
  (forall frames, writer_file env path frames = Some (enc frames)) ->
  fst (capture_video env fuel (callback_of observed) path st) = Ret true ->
  exists frames,
    files (snd (capture_video env fuel (callback_of observed) path st)) !! path
    = Some (enc frames)
    /\ (forall i frame, frames !! i = Some frame ->
          cap_read env (reads st + i) = ReadFrame frame)
    /\ (forall i, (i < length frames)%nat ->
          timedelta_seconds (now env (S (ticks st) + i) - now env (ticks st)) < 10)
    /\ (10 <= timedelta_seconds
                (now env (S (ticks st) + length frames) - now env (ticks st))
        \/ cap_read env (reads st + length frames) = ReadFailed).
Proof.
  intros Hc Hw Hb.
  destruct (capture_video env fuel (callback_of observed) path st) as [r st'] eqn:H.
  simpl in Hb. subst r. simpl snd.
  unfold capture_video in H.
  rewrite (bind_Ret _ _ _ _ _ (update_status_run observed _ _ st)) in H.
  unfold try_except in H. rewrite Hc in H.
  unfold bind at 1 in H. unfold set_file at 1 in H. rewrite Hw in H.
  unfold bind at 1 in H. unfold datetime_now at 1 in H.
  match type of H with context [bind (video_loop env fuel path ?t ?w) _ ?s] =>
    set (s2 := s) in H; set (t0 := t) in H end.
  assert (Hr2 : reads s2 = reads st) by (subst s2; destruct observed; reflexivity).
  assert (Hk2 : ticks s2 = S (ticks st)) by (subst s2; destruct observed; reflexivity).
  assert (Ht0 : t0 = now env (ticks st)) by (subst t0; destruct observed; reflexivity).
  assert (Hf2 : files s2 !! path = Some (enc []))
    by (subst s2; simpl; apply lookup_insert_eq).
  unfold bind at 1 in H.
  destruct (video_loop env fuel path t0 [] s2) as [[[] | e | ] s3] eqn:Hl.
  - rewrite (bind_Ret _ _ _ _ _ (update_status_run observed _ _ s3)) in H.
    injection H as <-.
    destruct (video_loop_frames env enc fuel path t0 Hw [] s2 s3 Hl Hf2)
      as (frames & Hfs & Hrs & Hts & Hend).
    rewrite Hr2 in Hrs, Hend. rewrite Hk2, Ht0 in Hts, Hend.
    exists frames. split; [destruct observed; exact Hfs |].
    split; [exact Hrs |]. split; [exact Hts | exact Hend].
  - rewrite (bind_Ret _ _ _ _ _ (update_status_run observed _ _ s3)) in H.
    unfold bind, path_exists in H.
    destruct (bool_decide _) in H; simpl in H; try discriminate.
    unfold write_file in H. destruct (open_wb_error env path); simpl in H; discriminate.
  - discriminate.
Qed.

(** The clock of the working world moves four seconds per reading: two
    frames are read before it shows twelve seconds. *)
Lemma recording_holds_frames_read_witness :
  exists frames,
    files (snd (capture_video Scenario.working 5 (callback_of true) "v.avi"
                  Scenario.st0)) !! "v.avi"
    = Some (list_byte_of_string "AVI " ++ concat frames)
    /\ (forall i frame, frames !! i = Some frame ->
          cap_read Scenario.working (reads Scenario.st0 + i) = ReadFrame frame)
    /\ (forall i, (i < length frames)%nat ->
          timedelta_seconds (now Scenario.working (S (ticks Scenario.st0) + i)
                             - now Scenario.working (ticks Scenario.st0)) < 10)
    /\ (10 <= timedelta_seconds
                (now Scenario.working (S (ticks Scenario.st0) + length frames)
                 - now Scenario.working (ticks Scenario.st0))
        \/ cap_read Scenario.working (reads Scenario.st0 + length frames) = ReadFailed).
Proof.
  apply (recording_holds_frames_read Scenario.working
           (fun frames => list_byte_of_string "AVI " ++ concat frames)
           5 true "v.avi" Scenario.st0).
  - reflexivity.
  - intros frames. reflexivity.
  - vm_compute. reflexivity.
Defined.

(** ** Errors of the email package *)

(** X23: when connect, STARTTLS and login went through and
    [msg.as_string()] raises, [send_email_alert] returns [False] after the
    login: the message is not handed over, and the session with the relay
    is not closed by [quit]. *)
Theorem unserialisable_message_stops_after_login env sender_email sender_password
    recipients subject body audio_file video_file st e :
  let run := send_email_alert env sender_email sender_password recipients subject body
               audio_file video_file st in
  let msg := composed env st sender_email recipients subject body audio_file video_file in
  mime_text_error env (full_body env body (now env (ticks st))) = None ->
  smtp_connect env = None ->
  smtp_starttls env = None ->
  smtp_login env sender_email sender_password = None ->
  as_string_error env msg = Some e ->
  fst run = Ret false
  /\ trace (snd run)
     = trace st ++ [EvSmtpConnect "smtp.gmail.com" 587; EvSmtpStartTls;
                    EvSmtpLogin sender_email sender_password].
Proof.
  intros run msg Hb H1 H2 H3 Ha. subst run msg.
  rewrite (send_email_alert_run _ _ _ _ _ _ _ _ _ Hb), smtp_send_eq.
  unfold smtp_delivered, smtp_reached, smtp_commands.
  rewrite H1, H2, H3, Ha. split; reflexivity.
Qed.

Lemma unserialisable_message_stops_after_login_witness :
  let run := send_email_alert Edge.unserialisable Edge.two_line_sender default_password
               [default_sender] "Emergency Alert!" "Help needed!" "a.wav" "v.avi"
               Scenario.st0 in
  fst run = Ret false
  /\ trace (snd run)
     = trace Scenario.st0
       ++ [EvSmtpConnect "smtp.gmail.com" 587; EvSmtpStartTls;
           EvSmtpLogin Edge.two_line_sender default_password].
Proof.
  apply (unserialisable_message_stops_after_login Edge.unserialisable
           Edge.two_line_sender default_password [default_sender] "Emergency Alert!"
           "Help needed!" "a.wav" "v.avi" Scenario.st0
           "HeaderParseError: header value appears to contain an embedded header");
    reflexivity.
Defined.

(** X24: when [MIMEText] cannot encode the body, the error is raised out
    of [send_email_alert] and out of the dispatch step, which has reported
    "Sending email alert..." and nothing more: no SMTP command is sent, no
    file is written, and neither the report on the email channel nor the
    SMS step follows. *)
Theorem unencodable_body_aborts_dispatch env observed sender_email sender_password
    email_recipients subject body audio_filename video_filename st e :
  let run := dispatch env (callback_of observed) sender_email sender_password
               email_recipients subject body audio_filename video_filename st in
  mime_text_error env (full_body env body (now env (ticks st))) = Some e ->
  fst (send_email_alert env sender_email sender_password email_recipients subject body
         audio_filename video_filename st) = Raise e
  /\ fst run = Raise e
  /\ files (snd run) = files st
  /\ trace (snd run)
     = trace st ++ (if observed then [EvStatus "Sending email alert..." true] else []).
Proof.
  intros run Hb. subst run. split.
  - rewrite send_email_alert_eq, Hb. reflexivity.
  - pose (st1 := if observed
                 then snd (emit (EvStatus "Sending email alert..." true) st)
                 else st).
    assert (He : send_email_alert env sender_email sender_password email_recipients
                   subject body audio_filename video_filename st1
                 = (Raise e, tick st1)).
    { rewrite send_email_alert_eq.
      replace (ticks st1) with (ticks st) by (subst st1; destruct observed; reflexivity).
      rewrite Hb. reflexivity. }
    unfold dispatch.
    rewrite (bind_Ret _ _ _ _ _ (update_status_run observed _ _ st)).
    fold st1. rewrite (bind_Raise _ _ _ _ _ He).
    subst st1. destruct observed; simpl; rewrite ?app_nil_r; repeat split.
Qed.

Lemma unencodable_body_aborts_dispatch_witness :
  let run := dispatch Edge.unencodable_label (callback_of true) default_sender
               default_password [default_sender] "Emergency Alert!" Edge.lone_surrogate
               "a.wav" "v.avi" Scenario.st0 in
  fst run
  = Raise "UnicodeEncodeError: 'utf-8' codec can't encode character: surrogates not allowed"
  /\ trace (snd run) = trace Scenario.st0 ++ [EvStatus "Sending email alert..." true].
Proof.
  destruct (unencodable_body_aborts_dispatch Edge.unencodable_label true default_sender
              default_password [default_sender] "Emergency Alert!" Edge.lone_surrogate
              "a.wav" "v.avi" Scenario.st0
              "UnicodeEncodeError: 'utf-8' codec can't encode character: surrogates not allowed"
              eq_refl)
    as (_ & Hr & _ & Ht).
  split; [exact Hr | exact Ht].
Defined.
